(** * jsonlines2tei: a shallow embedding of the converter and its properties

    The program turns one document of a jsonlines corpus (tokenised
    sentences, optional part-of-speech tags, optional paragraph marks and
    coreference clusters) into two TEI documents: the text and the
    stand-off URS annotations.

    Every function of [jsonlines2tei.py] that takes part in the conversion
    is embedded below under its own name.  Python strings are [string],
    Python integers are [Z] (or [nat] for counters that only grow from 0),
    [set()] is a [gset], the identity-keyed [dict] of referent names is an
    association list in insertion order, and a raised [IndexError] is an
    explicit outcome.  A [string] holds the bytes of the UTF-8 encoding
    of the Python text; the operations modelled (escaping, the two
    substitutions on the document key) only single out ASCII characters,
    and give the same result on bytes as on code points.

    The file has three parts: the embedding of the program, the
    definitions the properties are stated with, and the properties. *)

From Stdlib Require Import ZArith Ascii String List.
From stdpp Require Import base numbers list gmap strings pretty.

(** ** Outcomes of Python code *)

Inductive py_error : Type :=
  | IndexError.

(** A call returns a value, raises, or (for the one [while] loop of the
    program) exhausts the iterations it was allowed. *)
Inductive outcome (A : Type) : Type :=
  | Return (a : A)
  | Raise (e : py_error)
  | NoFuel.

Arguments Return {A} a.
Arguments Raise {A} e.
Arguments NoFuel {A}.

Definition bind {A B} (x : outcome A) (f : A -> outcome B) : outcome B :=
  match x with
  | Return a => f a
  | Raise e => Raise e
  | NoFuel => NoFuel
  end.

Notation "'do' x <- c1 ; c2" := (bind c1 (fun x => c2))
  (at level 10, x name, c1 at level 100, c2 at level 200).

(** ** Python primitives used by the program *)

Module Py.

(** [" ".join(l)] and friends. *)
Definition join (sep : string) (l : list string) : string :=
  String.concat sep l.

(** [str(n)] and the [{n}] of an f-string, for an integer. *)
Definition str_nat (n : nat) : string := pretty n.
Definition str_int (z : Z) : string := pretty z.

(** The bound of a slice, as [PySlice_AdjustIndices] clamps it for a
    positive step: a negative bound counts from the end, and the result
    is kept within [0 .. len]. *)
Definition slice_bound (i : Z) (len : nat) : nat :=
  if (i <? 0)%Z then Z.to_nat (Z.max 0 (i + Z.of_nat len))
  else Z.to_nat (Z.min i (Z.of_nat len)).

(** [l[lo:hi]]: never raises. *)
Definition slice {A} (l : list A) (lo hi : Z) : list A :=
  let a := slice_bound lo (length l) in
  let b := slice_bound hi (length l) in
  take (b - a) (drop a l).

(** [l[i]] for a non-negative index. *)
Definition index {A} (l : list A) (i : nat) : outcome A :=
  match l !! i with
  | Some x => Return x
  | None => Raise IndexError
  end.

(** [sorted(l, key=key, reverse=True)]: a stable sort by descending
    key.  Python keeps the original order of elements with equal keys
    also when [reverse] is set; a stable sort has one possible result,
    so insertion stands for Timsort. *)
Fixpoint insert_desc {A} (key : A -> nat) (x : A) (l : list A) : list A :=
  match l with
  | [] => [x]
  | y :: l' =>
      if (key x <? key y)%nat then y :: insert_desc key x l'
      else x :: y :: l'
  end.

Definition sorted_rev {A} (key : A -> nat) (l : list A) : list A :=
  foldr (insert_desc key) [] l.

(** [s.replace(c, r)] for a pattern of one character. *)
Fixpoint replace_char (c : ascii) (r : string) (s : string) : string :=
  match s with
  | EmptyString => EmptyString
  | String a s' =>
      if Ascii.eqb a c then r +:+ replace_char c r s'
      else String a (replace_char c r s')
  end.

(** [xml.sax.saxutils.escape(data)] with no extra entities: the three
    replacements, in the order of the library. *)
Definition escape (data : string) : string :=
  let data := replace_char "&" "&amp;" data in
  let data := replace_char ">" "&gt;" data in
  let data := replace_char "<" "&lt;" data in
  data.

End Py.

(** ** Data model *)

(** A mention is the two-element list [[start, end]] of the input:
    [x.1] is [x[0]] and [x.2] is [x[1]]. *)
Definition mention : Type := (Z * Z)%type.
Definition cluster : Type := list mention.

(** The mention as the Python list it is, and [len(x)]. *)
Definition mention_items (x : mention) : list Z := [x.1; x.2].
Definition mention_len (x : mention) : nat := length (mention_items x).

(** The keys [speakers] and the like are never read and are left out.
    [pos] and [paragraphs] are optional keys. *)
Record document : Type := Doc {
  doc_key : string;
  sentences : list (list string);
  pos : option (list (list string));
  paragraphs : option (list (Z * Z));
  clusters : list cluster
}.

(** The dictionary of [_get_refnames]: keyed by [id(cluster)].  The
    clusters of a parsed line are distinct objects, so the identity of a
    cluster is its position in [doc['clusters']]; entries stand in
    insertion order, which is the order [items()] walks them. *)
Definition refnames : Type := list (nat * string).

(** [clusters[cluster] = name]: the key is present, its place is kept. *)
Definition refnames_set (k : nat) (v : string) (d : refnames) : refnames :=
  (fun kv : nat * string => if (kv.1 =? k)%nat then (kv.1, v) else kv) <$> d.

(** ** Referent Namer *)

(** [tokens = [tok for sent in doc['sentences'] for tok in sent]] *)
Definition tokens_of (doc : document) : list string := concat (sentences doc).

(** [" ".join(tokens[cluster[0][0]:cluster[0][1]+1])] *)
Definition first_text (tokens : list string) (cl : cluster) : outcome (list string) :=
  do m <- Py.index cl 0;
  Return (Py.slice tokens m.1 (m.2 + 1)%Z).

(** The local function [get_longest]. *)
Definition get_longest (tokens : list string) (cl : cluster) : outcome (list string) :=
  let cl := Py.sorted_rev mention_len cl in
  do m <- Py.index cl 0;
  Return (Py.slice tokens m.1 (m.2 + 1)%Z).

(** The two dict comprehensions: one entry per cluster, in order; the
    first cluster that cannot be named raises. *)
Fixpoint candidates (text : cluster -> outcome (list string))
    (c : nat) (cls : list cluster) : outcome refnames :=
  match cls with
  | [] => Return []
  | cl :: rest =>
      do toks <- text cl;
      do d <- candidates text (S c) rest;
      Return ((c, Py.join " " toks) :: d)
  end.

(** [while name not in used: name += str(counter); counter += 1].  The
    test comes first, so a loop whose test fails at once needs no fuel. *)
Fixpoint rename_loop (fuel : nat) (used : gset string)
    (name : string) (counter : nat) : outcome string :=
  if bool_decide (name ∉ used) then
    match fuel with
    | O => NoFuel
    | S fuel' =>
        rename_loop fuel' used (name +:+ Py.str_nat counter) (S counter)
    end
  else Return name.

(** The body of [for cluster, name in clusters.items()]. *)
Definition dedup_step (fuel : nat) (st : refnames * gset string)
    (item : nat * string) : outcome (refnames * gset string) :=
  let '(d, used) := st in
  let '(cl, name) := item in
  if bool_decide (name ∈ used) then
    do name' <- rename_loop fuel used name 1;
    Return (refnames_set cl name' d, {[name']} ∪ used)
  else
    Return (d, {[name]} ∪ used).

(** The [for] loop.  It walks the live dictionary by position: the body
    only assigns to the key it is visiting, so the size never changes. *)
Fixpoint dedup_loop (fuel : nat) (i n : nat) (st : refnames * gset string)
    : outcome (refnames * gset string) :=
  match n with
  | O => Return st
  | S n' =>
      match st.1 !! i with
      | Some item =>
          do st' <- dedup_step fuel st item;
          dedup_loop fuel (S i) n' st'
      | None => Return st
      end
  end.

Definition _get_refnames (fuel : nat) (doc : document) (first : bool)
    : outcome refnames :=
  let tokens := tokens_of doc in
  do d <- (if first then candidates (first_text tokens) 0 (clusters doc)
        else candidates (get_longest tokens) 0 (clusters doc));
  do st <- dedup_loop fuel 0 (length d) (d, ∅);
  Return st.1.

(** ** Text Renderer *)

(** The double quote, and an attribute value between quotes. *)
Definition dquote : string := String "034"%char EmptyString.
Definition quoted (s : string) : string := dquote +:+ s +:+ dquote.

(** [pars = {p[1] for p in doc['paragraphs']} if 'paragraphs' in doc else None] *)
Definition pars_of (doc : document) : option (gset Z) :=
  (fun ps => list_to_set (snd <$> ps)) <$> paragraphs doc.

(** The loop variables [t], [p] and [res] of [_build_text]. *)
Record text_state : Type := TextState {
  ts_t : nat;
  ts_p : nat;
  ts_res : string
}.

(** [w_export_{t}], the id of the token with running index [t]. *)
Definition word_id (t : nat) : string := "w_export_" +:+ Py.str_nat t.

(** [f'<w id="w_export_{t}" n="{t}">'] *)
Definition w_open (t : nat) : string :=
  "<w id=" +:+ quoted (word_id t)
  +:+ " n=" +:+ quoted (Py.str_nat t) +:+ ">".

(** [f'<txm:form>{escape(token)}</txm:form>'] *)
Definition txm_form (token : string) : string :=
  "<txm:form>" +:+ Py.escape token +:+ "</txm:form>".

(** [f'<txm:ana resp="#txm" type="#frpos">{escape(tag)}</txm:ana>'] *)
Definition txm_ana (tag : string) : string :=
  "<txm:ana resp=" +:+ quoted "#txm" +:+ " type=" +:+ quoted "#frpos" +:+ ">"
  +:+ Py.escape tag +:+ "</txm:ana>".

(** [f'<s n="{s}">'] *)
Definition s_open (s : nat) : string :=
  "<s n=" +:+ quoted (Py.str_nat s) +:+ ">".

(** The body of [for t_local, token in enumerate(sent)]. *)
Definition token_step (doc : document) (s : nat) (st : text_state)
    (t_local : nat) (token : string) : outcome text_state :=
  let res := ts_res st +:+ w_open (ts_t st) in
  let res := res +:+ txm_form token in
  do res <- match pos doc with
            | Some tags =>
                do row <- Py.index tags s;
                do tag <- Py.index row t_local;
                Return (res +:+ txm_ana tag)
            | None => Return res
            end;
  let res := res +:+ "</w>" in
  Return {| ts_t := S (ts_t st); ts_p := ts_p st; ts_res := res |}.

Fixpoint token_loop (doc : document) (s : nat) (t_local : nat)
    (sent : list string) (st : text_state) : outcome text_state :=
  match sent with
  | [] => Return st
  | token :: rest =>
      do st' <- token_step doc s st t_local token;
      token_loop doc s (S t_local) rest st'
  end.

(** [pars is not None and t-1 in pars and p < len(pars)-1] *)
Definition par_test (pars : option (gset Z)) (t p : nat) : bool :=
  match pars with
  | None => false
  | Some ps =>
      bool_decide ((Z.of_nat t - 1)%Z ∈ ps)
      && bool_decide (Z.of_nat p < Z.of_nat (size ps) - 1)%Z
  end.

(** The body of [for s, sent in enumerate(doc['sentences'])]. *)
Definition sentence_step (doc : document) (pars : option (gset Z))
    (st : text_state) (s : nat) (sent : list string) : outcome text_state :=
  let st := {| ts_t := ts_t st; ts_p := ts_p st;
               ts_res := ts_res st +:+ s_open s |} in
  do st <- token_loop doc s 0 sent st;
  let res := ts_res st +:+ "</s>" in
  if par_test pars (ts_t st) (ts_p st) then
    Return {| ts_t := ts_t st; ts_p := S (ts_p st);
              ts_res := res +:+ "</p><p>" |}
  else
    Return {| ts_t := ts_t st; ts_p := ts_p st; ts_res := res |}.

Fixpoint sentence_loop (doc : document) (pars : option (gset Z)) (s : nat)
    (sents : list (list string)) (st : text_state) : outcome text_state :=
  match sents with
  | [] => Return st
  | sent :: rest =>
      do st' <- sentence_step doc pars st s sent;
      sentence_loop doc pars (S s) rest st'
  end.

Definition _build_text (doc : document) : outcome string :=
  let pars := pars_of doc in
  let st := {| ts_t := 0; ts_p := 0; ts_res := "<text>" +:+ "<p>" |} in
  do st <- sentence_loop doc pars 0 (sentences doc) st;
  let res := ts_res st +:+ "</p>" in
  let res := res +:+ "</text>" in
  Return res.

(** ** Annotation Renderer *)

(** The loop variables of [_build_urs]: the counter ([m] in the first
    loop, [offset] in the second) and the two strings [res] and [div].
    The dictionary [names] is in scope of both loops and read by
    neither (see [ref_feature]). *)
Record urs_state : Type := UrsState {
  us_n : nat;
  us_res : string;
  us_div : string
}.

(** [u-MENTION-{m}] *)
Definition mention_id (m : nat) : string := "u-MENTION-" +:+ Py.str_nat m.

(** [text:w_export_{i}] for a bound of a mention. *)
Definition token_ref (i : Z) : string := "text:w_export_" +:+ Py.str_int i.

(** The two-line literal of the span: both lines are f-strings. *)
Definition span_elem (m : nat) (x : mention) : string :=
  "<span id=" +:+ quoted (mention_id m)
  +:+ " from=" +:+ quoted (token_ref x.1) +:+ " "
  +:+ "to=" +:+ quoted (token_ref x.2)
  +:+ " ana=" +:+ quoted ("#" +:+ mention_id m +:+ "-fs") +:+ "/>".

(** The two-line literal of the REF feature.  Its first line is an
    f-string with no field; its second line has no [f] prefix, so the
    braces and what stands between them are text: neither [names] nor
    [cluster] is read. *)
Definition ref_feature : string :=
  "<f name=" +:+ quoted "REF" +:+ "><string>"
  +:+ "{escape(names[id(cluster)])}</string></f>".

(** The body of [for start, end in cluster]. *)
Definition mention_step (st : urs_state) (x : mention) : urs_state :=
  let m := us_n st in
  let res := us_res st +:+ span_elem m x in
  let div := us_div st +:+ "<fs id=" +:+ quoted (mention_id m +:+ "-fs") +:+ ">" in
  let div := div +:+ ref_feature in
  let div := div +:+ "</fs>" in
  {| us_n := S m; us_res := res; us_div := div |}.

(** [for cluster in doc['clusters']: for start, end in cluster: ...] *)
Fixpoint mention_loop (cls : list cluster) (st : urs_state) : urs_state :=
  match cls with
  | [] => st
  | cl :: rest => mention_loop rest (foldl mention_step st cl)
  end.

(** [" ".join(f'#u-MENTION-{m+offset}' for m in range(len(cluster)))] *)
Definition chain_target (offset : nat) (cl : cluster) : string :=
  Py.join " " ((fun m => "#" +:+ mention_id (m + offset)) <$> seq 0 (length cl)).

(** [s-CHAINE-{c}] *)
Definition chain_id (c : nat) : string := "s-CHAINE-" +:+ Py.str_nat c.

Definition link_elem (c : nat) (target : string) : string :=
  "<link id=" +:+ quoted (chain_id c) +:+ " target=" +:+ quoted target +:+ " "
  +:+ "ana=" +:+ quoted ("#" +:+ chain_id c +:+ "-fs") +:+ "/>".

(** [f'<f name="NB MAILLONS"><string>{len(cluster)}</string></f>'] *)
Definition nb_maillons (cl : cluster) : string :=
  "<f name=" +:+ quoted "NB MAILLONS" +:+ "><string>"
  +:+ Py.str_nat (length cl) +:+ "</string></f>".

(** The body of [for c, cluster in enumerate(doc['clusters'])]. *)
Definition chain_step (st : urs_state) (c : nat) (cl : cluster)
    : urs_state :=
  let offset := us_n st in
  let target := chain_target offset cl in
  let offset := offset + length cl in
  let res := us_res st +:+ link_elem c target in
  let div := us_div st +:+ "<fs id=" +:+ quoted (chain_id c +:+ "-fs") +:+ ">" in
  let div := div +:+ ref_feature in
  let div := div +:+ nb_maillons cl in
  let div := div +:+ "</fs>" in
  {| us_n := offset; us_res := res; us_div := div |}.

Fixpoint chain_loop (c : nat) (cls : list cluster) (st : urs_state)
    : urs_state :=
  match cls with
  | [] => st
  | cl :: rest => chain_loop (S c) rest (chain_step st c cl)
  end.

Definition _build_urs (fuel : nat) (doc : document) (first : bool)
    : outcome string :=
  do names <- _get_refnames fuel doc first;
  let div := "<div type=" +:+ quoted "unit-fs" +:+ ">" in
  let res := "<annotationGrp type=" +:+ quoted "Unit"
             +:+ " subtype=" +:+ quoted "MENTION" +:+ ">" in
  let st := mention_loop (clusters doc)
              {| us_n := 0; us_res := res; us_div := div |} in
  let res := us_res st +:+ "</annotationGrp>" in
  let div := us_div st +:+ "</div>" in
  let div := div +:+ "<div type=" +:+ quoted "relation-fs" +:+ "/>" in
  let res := res +:+ "<annotationGrp type=" +:+ quoted "Schema"
             +:+ " subtype=" +:+ quoted "CHAINE" +:+ ">" in
  let div := div +:+ "<div type=" +:+ quoted "schema-fs" +:+ ">" in
  let st := chain_loop 0 (clusters doc)
              {| us_n := 0; us_res := res; us_div := div |} in
  let res := us_res st +:+ "</annotationGrp>" in
  let div := us_div st +:+ "</div>" in
  let res := "<standOff><annotations type=" +:+ quoted "coreference" +:+ ">"
             +:+ res +:+ div +:+ "</annotations></standOff>" in
  Return res.

(** ** Document Assembler *)

Definition xml_decl : string :=
  "<?xml version=" +:+ quoted "1.0" +:+ " encoding=" +:+ quoted "UTF-8" +:+ "?>".

Definition _get_teis (doc : document) (xml_text xml_urs : string)
    : string * string :=
  let header := "<teiHeader><fileDesc><titleStmt><title>" +:+ doc_key doc
                +:+ "</title></titleStmt></fileDesc></teiHeader>" in
  let text := xml_decl
              +:+ "<TEI xmlns=" +:+ quoted "http://www.tei-c.org/ns/1.0"
              +:+ " xmlns:txm=" +:+ quoted "http://textometrie.org/1.0" +:+ ">"
              +:+ header +:+ xml_text +:+ "</TEI>" in
  let urs := xml_decl
             +:+ "<tei:TEI xmlns:tei=" +:+ quoted "http://www.tei-c.org/ns/1.0" +:+ ">"
             +:+ header +:+ "<text></text>" +:+ xml_urs +:+ "</tei:TEI>" in
  (text, urs).

(** ** Batch Driver: one document *)

(** The class [[-a-zA-Z0-9_]] of the first pattern, on a [str]. *)
Definition name_char (c : ascii) : bool :=
  Ascii.eqb c "-"
  || (Ascii.leb "a" c && Ascii.leb c "z")
  || (Ascii.leb "A" c && Ascii.leb c "Z")
  || (Ascii.leb "0" c && Ascii.leb c "9")
  || Ascii.eqb c "_".

(** [re.sub(pattern, repl, s)] for a pattern that is one character
    class: every character of the class is replaced. *)
Fixpoint re_sub_class (class : ascii -> bool) (repl : string) (s : string)
    : string :=
  match s with
  | EmptyString => EmptyString
  | String a s' =>
      if class a then repl +:+ re_sub_class class repl s'
      else String a (re_sub_class class repl s')
  end.

(** [re.sub(pattern, repl, s)] for the pattern [c+]: every maximal run
    of [c] is one match.  [in_run] says that the character before was
    part of the match being read. *)
Fixpoint re_sub_plus (c : ascii) (repl : string) (in_run : bool) (s : string)
    : string :=
  match s with
  | EmptyString => EmptyString
  | String a s' =>
      if Ascii.eqb a c then
        if in_run then re_sub_plus c repl true s'
        else repl +:+ re_sub_plus c repl true s'
      else String a (re_sub_plus c repl false s')
  end.

(** The two substitutions on [doc['doc_key']]. *)
Definition file_stem (key : string) : string :=
  let fn := key in
  let fn := re_sub_class (fun c => negb (name_char c)) "_" fn in
  let fn := re_sub_plus "_" "_" false fn in
  fn.

(** [os.path.join(a, b)] of [posixpath]. *)
Definition path_join (a b : string) : string :=
  if String.prefix "/" b then b
  else if String.eqb a "" || String.eqb (String.substring (String.length a - 1) 1 a) "/"
       then a +:+ b
       else a +:+ "/" +:+ b.

(** [jsonlines2tei]: the files it writes, as (path, content), in the
    order they are written.  The text is rendered before the
    annotations. *)
Definition jsonlines2tei (fuel : nat) (doc : document)
    (xml_dir urs_dir : string) (first : bool)
    : outcome (list (string * string)) :=
  do t <- _build_text doc;
  do u <- _build_urs fuel doc first;
  let '(xml_text, xml_urs) := _get_teis doc t u in
  let fn := file_stem (doc_key doc) in
  Return [ (path_join xml_dir (fn +:+ ".xml"), xml_text);
           (path_join urs_dir (fn +:+ "-urs.xml"), xml_urs) ].

(** ** Definitions used to state the properties *)

(** Concatenation of a list of rendered pieces. *)
Definition cat (l : list string) : string := foldr String.app "" l.

(** The longest mention as the documentation describes it: the length
    of a mention is the number of tokens it spans, and the first mention
    of maximal length wins. *)
Definition span_len (x : mention) : Z := (x.2 - x.1 + 1)%Z.

Fixpoint spec_longest (cl : cluster) : option mention :=
  match cl with
  | [] => None
  | x :: rest =>
      match spec_longest rest with
      | Some y => if (span_len x <? span_len y)%Z then Some y else Some x
      | None => Some x
      end
  end.

Definition spec_longest_name (tokens : list string) (cl : cluster)
    : option string :=
  (fun x : mention => Py.join " " (Py.slice tokens x.1 (x.2 + 1)%Z))
    <$> spec_longest cl.

(** *** The rendered text, position by position *)

(** The number of tokens in the sentences before sentence [s]. *)
Definition sent_offset (doc : document) (s : nat) : nat :=
  sum_list_with length (take s (sentences doc)).

(** The tag [doc["pos"][s][t_local]], when the key and the place exist. *)
Definition tag_at (doc : document) (s t_local : nat) : option string :=
  match pos doc with
  | None => None
  | Some tags => tags !! s ≫= (.!! t_local)
  end.

(** The lookup of the tag of a token does not raise. *)
Definition tag_ok (doc : document) (s t_local : nat) : bool :=
  match pos doc with
  | None => true
  | Some _ => bool_decide (is_Some (tag_at doc s t_local))
  end.

Fixpoint sents_ok (doc : document) (s : nat) (sents : list (list string))
    : bool :=
  match sents with
  | [] => true
  | sent :: rest =>
      forallb (tag_ok doc s) (seq 0 (length sent)) && sents_ok doc (S s) rest
  end.

(** Every token of the document has a tag to look up, or no tag is
    looked up at all. *)
Definition text_ok (doc : document) : bool := sents_ok doc 0 (sentences doc).

(** The element of one token. *)
Definition w_elem (t : nat) (token : string) (tag : option string) : string :=
  w_open t +:+ txm_form token +:+ from_option txm_ana "" tag +:+ "</w>".

(** The element of sentence [s], whose first token has index
    [sent_offset doc s]. *)
Definition s_elem (doc : document) (s : nat) (sent : list string) : string :=
  s_open s
  +:+ cat (imap (fun t_local token =>
                   w_elem (sent_offset doc s + t_local) token
                          (tag_at doc s t_local)) sent)
  +:+ "</s>".

(** The number of paragraph breaks written before sentence [s] starts,
    and whether one is written after sentence [s]. *)
Fixpoint breaks_before (doc : document) (s : nat) : nat :=
  match s with
  | O => 0
  | S s' =>
      let p := breaks_before doc s' in
      if par_test (pars_of doc) (sent_offset doc (S s')) p then S p else p
  end.

Definition break_after (doc : document) (s : nat) : bool :=
  par_test (pars_of doc) (sent_offset doc (S s)) (breaks_before doc s).

Definition par_mark (doc : document) (s : nat) : string :=
  if break_after doc s then "</p><p>" else "".

(** The text of one character after [escape]. *)
Definition escaped_char (c : ascii) : string :=
  if Ascii.eqb c "&" then "&amp;"
  else if Ascii.eqb c "<" then "&lt;"
  else if Ascii.eqb c ">" then "&gt;"
  else String c "".

(** No raw [<] or [>], and every [&] starts one of the three entities. *)
Fixpoint xml_safe (s : string) : bool :=
  match s with
  | EmptyString => true
  | String c s' =>
      if Ascii.eqb c "<" then false
      else if Ascii.eqb c ">" then false
      else if Ascii.eqb c "&" then
        (String.prefix "amp;" s' || String.prefix "lt;" s'
         || String.prefix "gt;" s') && xml_safe s'
      else xml_safe s'
  end.

(** The number of places of [s] where [pat] starts. *)
Fixpoint occurrences (pat : string) (s : string) : nat :=
  (if String.prefix pat s then 1 else 0)
  + match s with
    | EmptyString => 0
    | String _ s' => occurrences pat s'
    end.

(** No [<] at all. *)
Fixpoint lt_free (s : string) : bool :=
  match s with
  | EmptyString => true
  | String c s' => negb (Ascii.eqb c "<") && lt_free s'
  end.

(** Every [<] is followed by a character other than [p]: the string
    neither holds nor starts a tag whose name begins with p. *)
Fixpoint p_tag_free (s : string) : bool :=
  match s with
  | EmptyString => true
  | String c s' =>
      (if Ascii.eqb c "<" then
         match s' with
         | EmptyString => false
         | String d _ => negb (Ascii.eqb d "p")
         end
       else true) && p_tag_free s'
  end.

(** *** The rendered annotations, position by position *)

(** The number of mentions in the clusters before cluster [c]: the
    first mention id of cluster [c]. *)
Definition first_id (cls : list cluster) (c : nat) : nat :=
  length (concat (take c cls)).

(** The feature structure of mention [m]. *)
Definition mention_fs (m : nat) : string :=
  "<fs id=" +:+ quoted (mention_id m +:+ "-fs") +:+ ">"
  +:+ ref_feature +:+ "</fs>".

(** The feature structure of chain [c]. *)
Definition chain_fs (c : nat) (cl : cluster) : string :=
  "<fs id=" +:+ quoted (chain_id c +:+ "-fs") +:+ ">"
  +:+ ref_feature +:+ nb_maillons cl +:+ "</fs>".

(** The stand-off element of a list of clusters. *)
Definition urs_xml (cls : list cluster) : string :=
  "<standOff><annotations type=" +:+ quoted "coreference" +:+ ">"
  +:+ ("<annotationGrp type=" +:+ quoted "Unit"
       +:+ " subtype=" +:+ quoted "MENTION" +:+ ">"
       +:+ cat (imap (fun m x => span_elem m x) (concat cls))
       +:+ "</annotationGrp>"
       +:+ "<annotationGrp type=" +:+ quoted "Schema"
       +:+ " subtype=" +:+ quoted "CHAINE" +:+ ">"
       +:+ cat (imap (fun c cl =>
                        link_elem c
                          (Py.join " " ((fun m => "#" +:+ mention_id m)
                                          <$> seq (first_id cls c) (length cl))))
                     cls)
       +:+ "</annotationGrp>")
  +:+ ("<div type=" +:+ quoted "unit-fs" +:+ ">"
       +:+ cat (imap (fun m _ => mention_fs m) (concat cls))
       +:+ "</div>"
       +:+ "<div type=" +:+ quoted "relation-fs" +:+ "/>"
       +:+ "<div type=" +:+ quoted "schema-fs" +:+ ">"
       +:+ cat (imap (fun c cl => chain_fs c cl) cls)
       +:+ "</div>")
  +:+ "</annotations></standOff>".

(** *** The file stem as the documentation words it *)

(** The characters of the class [[A-Za-z0-9_-]], one by one. *)
Definition spec_allowed : string :=
  "ABCDEFGHIJKLMNOPQRSTUVWXYZabcdefghijklmnopqrstuvwxyz0123456789_-".

Definition spec_class (c : ascii) : bool :=
  existsb (Ascii.eqb c) (list_ascii_of_string spec_allowed).

(** Every character outside the class becomes an underscore. *)
Definition spec_replace (l : list ascii) : list ascii :=
  (fun c => if spec_class c then c else "_"%char) <$> l.

(** A run of underscores becomes one: an underscore followed by an
    underscore is dropped. *)
Fixpoint spec_collapse (l : list ascii) : list ascii :=
  match l with
  | [] => []
  | a :: l' =>
      match l' with
      | b :: _ =>
          if Ascii.eqb a "_" && Ascii.eqb b "_" then spec_collapse l'
          else a :: spec_collapse l'
      | [] => [a]
      end
  end.

Definition spec_stem (key : string) : string :=
  string_of_list_ascii (spec_collapse (spec_replace (list_ascii_of_string key))).

(** The number of different names in a dictionary of referent names. *)
Definition distinct_names (d : refnames) : nat :=
  size (list_to_set d.*2 : gset string).

(** ** Example documents *)

Module Examples.

(** The scenario of the documentation: one chain of two mentions. *)
Definition d1 : document :=
  Doc "d1" [["A"; "B"]; ["C"]] None None [[(0, 0); (2, 2)]%Z].

(** Two chains whose first mentions are the same token. *)
Definition two_A : document :=
  Doc "d" [["A"; "B"]] None None [[(0, 0)]; [(0, 0)]]%Z.

(** A chain whose second mention is longer than its first. *)
Definition long_second : document :=
  Doc "d" [["A"; "B"; "C"]] None None [[(0, 0); (1, 2)]]%Z.

(** Two paragraphs, the first of which ends inside sentence 0: the
    paragraph marks are (0, 0) and (1, 2). *)
Definition mid_mark : document :=
  Doc "d" [["A"; "B"]; ["C"]] None (Some [(0, 0); (1, 2)]%Z) [].

(** Two paragraphs that end with sentence 0 and with sentence 1: the
    paragraph marks are (0, 1) and (2, 2). *)
Definition two_pars : document :=
  Doc "d" [["A"; "B"]; ["C"]] None (Some [(0, 1); (2, 2)]%Z) [].

(** Two chains, of two mentions and of one. *)
Definition two_chains : document :=
  Doc "d" [["A"; "B"]; ["C"]] None None [[(0, 0); (2, 2)]; [(1, 1)]]%Z.

(** A chain with no mention. *)
Definition empty_chain : document :=
  Doc "d" [["A"]] None None [[(0, 0)%Z]; []].

End Examples.


(** * The rest of the program and further properties *)

From stdpp Require Import sorting.

(** ** Further example documents *)

Module MoreExamples.

(** The scenario document under another key and with other chains. *)
Definition d1_other_chains : document :=
  Doc "other" [["A"; "B"]; ["C"]] None None [[(1, 1)]; [(0, 2)]]%Z.

(** The chains of the scenario over another text, with tags. *)
Definition d1_other_text : document :=
  Doc "other" [["X"]] (Some [["N"]]) (Some [(0, 0)%Z]) [[(0, 0); (2, 2)]%Z].

(** Tags with a surplus row and a surplus tag. *)
Definition surplus_tags : document :=
  Doc "d" [["A"; "B"]; []; ["C"]]
      (Some [["DET"; "V"; "X"]; []; ["N"]; ["Y"]]) None [].

(** The second sentence has two tokens and one tag. *)
Definition missing_tag : document :=
  Doc "d" [["A"]; ["B"; "C"]] (Some [["DET"]; ["V"]]) None [].


End MoreExamples.

(** ** Further definitions used to state properties *)

(** The name a cluster gets: the tokens of the slice of its first
    mention, joined by spaces. *)
Definition first_mention_name (tokens : list string) (cl : cluster) : string :=
  match cl with
  | x :: _ => Py.join " " (Py.slice tokens x.1 (x.2 + 1)%Z)
  | [] => ""
  end.

(** No place of [s] starts a beginning of [pat] that the end of [s]
    cuts short: a place of [s] from which [s] reads as a prefix of
    [pat] reads as the whole of [pat].  An occurrence of [pat] in
    [s +:+ s'] then lies in [s] or in [s']. *)
Fixpoint ends_clean (pat s : string) : bool :=
  match s with
  | EmptyString => true
  | String _ s' =>
      (negb (String.prefix s pat) || String.prefix pat s) && ends_clean pat s'
  end.

(** Every character of [s] passes the test [P]. *)
Fixpoint all_chars (P : ascii -> bool) (s : string) : bool :=
  match s with
  | EmptyString => true
  | String c s' => P c && all_chars P s'
  end.

(** The string [s] holds the piece [piece]. *)
Definition contains (piece s : string) : Prop :=
  exists pre post, s = pre +:+ piece +:+ post.
(** ** The primitives on small inputs *)

Section primitives.

Example slice_inner : Py.slice ["a"; "b"; "c"] 1 3 = ["b"; "c"].
Proof. reflexivity. Qed.

Example slice_negative : Py.slice ["a"; "b"; "c"] (-1) 5 = ["c"].
Proof. reflexivity. Qed.

Example slice_clamped : Py.slice ["a"; "b"; "c"] (-5) 2 = ["a"; "b"].
Proof. reflexivity. Qed.

Example slice_crossed : Py.slice ["a"; "b"; "c"] 2 1 = [].
Proof. reflexivity. Qed.

(** Descending, and stable among equal keys. *)
Example sorted_rev_stable :
  Py.sorted_rev length [[1]; [2; 3]; [4]; [5; 6]]
  = [[2; 3]; [5; 6]; [1]; [4]].
Proof. reflexivity. Qed.

Example escape_three : Py.escape "a<b>&c" = "a&lt;b&gt;&amp;c".
Proof. reflexivity. Qed.

Example str_int_negative : Py.str_int (-12) = "-12".
Proof. reflexivity. Qed.

Example file_stem_runs : file_stem "a__b/:c-d" = "a_b_c-d".
Proof. reflexivity. Qed.

Example path_join_plain : path_join "xml" "d1.xml" = "xml/d1.xml".
Proof. reflexivity. Qed.

Example path_join_slash : path_join "urs/" "d1-urs.xml" = "urs/d1-urs.xml".
Proof. reflexivity. Qed.

Example path_join_empty : path_join "" "d1.xml" = "d1.xml".
Proof. reflexivity. Qed.

End primitives.

(** ** Strings *)

Section strings.

Lemma str_app_cons (a : ascii) (s1 s2 : string) :
  String a s1 +:+ s2 = String a (s1 +:+ s2).
Proof. reflexivity. Qed.

Lemma str_app_nil_l (s : string) : "" +:+ s = s.
Proof. reflexivity. Qed.

Lemma str_app_nil_r (s : string) : s +:+ "" = s.
Proof.
  induction s as [|a s IH]; [done|]. by rewrite str_app_cons, IH.
Qed.

Lemma str_app_assoc (s1 s2 s3 : string) :
  (s1 +:+ s2) +:+ s3 = s1 +:+ (s2 +:+ s3).
Proof.
  induction s1 as [|a s1 IH]; [done|]. by rewrite !str_app_cons, IH.
Qed.

Lemma cat_cons (x : string) (l : list string) : cat (x :: l) = x +:+ cat l.
Proof. reflexivity. Qed.

Lemma cat_app (l1 l2 : list string) : cat (l1 ++ l2) = cat l1 +:+ cat l2.
Proof.
  induction l1 as [|x l1 IH]; [done|].
  by rewrite <- app_comm_cons, !cat_cons, IH, str_app_assoc.
Qed.

End strings.

(** ** Referent Namer: what the loop over the names does *)

Section refnames.

Implicit Types (d : refnames) (used : gset string) (cl : cluster).

(** The loop is entered only when its test is already false. *)
Lemma rename_loop_used fuel used name counter :
  name ∈ used -> rename_loop fuel used name counter = Return name.
Proof.
  intros Hin. destruct fuel; simpl;
    rewrite bool_decide_eq_false_2; auto.
Qed.

Lemma refnames_set_same k v d i :
  NoDup d.*1 -> d !! i = Some (k, v) -> refnames_set k v d = d.
Proof.
  unfold refnames_set. revert i.
  induction d as [|[k' v'] d IH]; intros i Hnd Hi; [done|].
  apply NoDup_cons in Hnd as [Hk' Hnd]. simpl in *.
  destruct i as [|i]; simplify_eq/=.
  - rewrite Nat.eqb_refl. f_equal.
    clear IH Hnd. induction d as [|[k2 v2] d IH]; [done|].
    simpl in *. apply not_elem_of_cons in Hk' as [Hne Hk'].
    destruct (Nat.eqb_spec k2 k) as [->|_]; [done|]. f_equal. auto.
  - destruct (Nat.eqb_spec k' k) as [->|_].
    + exfalso. apply Hk'. apply list_elem_of_fmap.
      exists (k, v). split; [done|]. by eapply list_elem_of_lookup_2.
    + f_equal. eauto.
Qed.

Lemma dedup_step_keeps fuel d used i item :
  NoDup d.*1 -> d !! i = Some item ->
  exists used', dedup_step fuel (d, used) item = Return (d, used').
Proof.
  intros Hnd Hi. destruct item as [k name]. unfold dedup_step.
  case_bool_decide as Hin.
  - rewrite rename_loop_used by done. simpl.
    erewrite refnames_set_same by done. eauto.
  - eauto.
Qed.

Lemma dedup_loop_keeps fuel d n i used :
  NoDup d.*1 ->
  exists used', dedup_loop fuel i n (d, used) = Return (d, used').
Proof.
  intros Hnd. revert i used.
  induction n as [|n IH]; intros i used; cbn [dedup_loop fst]; [eauto|].
  destruct (d !! i) as [item|] eqn:Hi; [|eauto].
  destruct (dedup_step_keeps fuel d used i item Hnd Hi) as [used' ->].
  cbn [bind]. apply IH.
Qed.

Lemma candidates_keys text c cls d :
  candidates text c cls = Return d -> d.*1 = seq c (length cls).
Proof.
  revert c d. induction cls as [|cl cls IH]; intros c d; simpl.
  - by intros [= <-].
  - destruct (text cl) as [toks| |]; simpl; try done.
    destruct (candidates text (S c) cls) as [d'| |] eqn:Hd; simpl; try done.
    intros [= <-]. simpl. f_equal. eauto.
Qed.

(** The names returned are the candidate names, whatever they are. *)
Lemma _get_refnames_candidates fuel doc first :
  _get_refnames fuel doc first =
    candidates (if first then first_text (tokens_of doc)
                else get_longest (tokens_of doc)) 0 (clusters doc).
Proof.
  unfold _get_refnames.
  assert (forall text,
    (do d <- candidates text 0 (clusters doc);
     do st <- dedup_loop fuel 0 (length d) (d, ∅); Return st.1)
    = candidates text 0 (clusters doc)) as Hgen.
  { intros text.
    destruct (candidates text 0 (clusters doc)) as [d| |] eqn:Hd; simpl; try done.
    assert (NoDup d.*1) as Hnd.
    { rewrite (candidates_keys _ _ _ _ Hd). apply NoDup_seq. }
    by destruct (dedup_loop_keeps fuel d (length d) 0 ∅ Hnd) as [used' ->]. }
  destruct first; apply Hgen.
Qed.

(** The loop over the names uses no fuel. *)
Lemma _get_refnames_fuel fuel fuel' doc first :
  _get_refnames fuel doc first = _get_refnames fuel' doc first.
Proof. by rewrite !_get_refnames_candidates. Qed.

(** A stable sort on a key that is the same for all elements moves
    nothing. *)
Lemma sorted_rev_const {A} (key : A -> nat) (l : list A) :
  (forall x y, key x = key y) -> Py.sorted_rev key l = l.
Proof.
  intros Hkey. induction l as [|x l IH]; [done|].
  unfold Py.sorted_rev in *. simpl. rewrite IH.
  destruct l as [|y l]; [done|]. simpl.
  rewrite (Hkey x y), Nat.ltb_irrefl. done.
Qed.

Lemma get_longest_first tokens cl :
  get_longest tokens cl = first_text tokens cl.
Proof.
  unfold get_longest, first_text.
  by rewrite sorted_rev_const.
Qed.

Lemma candidates_ext text1 text2 c cls :
  (forall cl, text1 cl = text2 cl) ->
  candidates text1 c cls = candidates text2 c cls.
Proof.
  intros Hext. revert c. induction cls as [|cl cls IH]; intros c; simpl; [done|].
  by rewrite Hext, IH.
Qed.

(** The comprehension raises exactly when a cluster has no mention. *)
Lemma candidates_first_raise tokens c cls :
  [] ∈ cls -> candidates (first_text tokens) c cls = Raise IndexError.
Proof.
  revert c. induction cls as [|cl cls IH]; intros c Hin.
  - by apply elem_of_nil in Hin.
  - simpl. destruct cl as [|x cl]; [done|]. simpl.
    apply elem_of_cons in Hin as [?|Hin]; [done|].
    by rewrite IH.
Qed.

Lemma candidates_first_return tokens c cls :
  [] ∉ cls -> exists d, candidates (first_text tokens) c cls = Return d.
Proof.
  revert c. induction cls as [|cl cls IH]; intros c Hnin; simpl; [eauto|].
  apply not_elem_of_cons in Hnin as [Hcl Hnin].
  destruct cl as [|x cl]; [done|]. simpl.
  destruct (IH (S c) Hnin) as [d ->]. simpl. eauto.
Qed.

End refnames.

(** ** Referent Namer: properties *)

(** C1 (the code departs from the claim).  Two clusters whose first
    mention is the token "A" both keep the name "A": the second one is
    not renamed to "A1", and the dictionary holds one distinct name for
    two clusters.  The renaming loop is guarded by [name in used] and
    runs [while name not in used], so it never runs. *)
Theorem refnames_collision_kept (fuel : nat) :
  exists d,
    _get_refnames fuel Examples.two_A true = Return d
    /\ d = [(0, "A"); (1, "A")]
    /\ distinct_names d = 1
    /\ length (clusters Examples.two_A) = 2.
Proof.
  exists [(0, "A"); (1, "A")].
  rewrite _get_refnames_candidates. by vm_compute.
Qed.

(** C3 (the code departs from the claim).  In LONGEST mode a cluster
    whose mentions are [0, 0] and [1, 2] over the tokens A B C is named
    "A", the text of its first mention, whereas its longest mention
    (two tokens) reads "B C": the sort key is [len] of the pair
    [start, end], which is 2 for every mention. *)
Theorem longest_mode_names_first_mention (fuel : nat) :
  _get_refnames fuel Examples.long_second false = Return [(0, "A")]
  /\ spec_longest_name (tokens_of Examples.long_second) [(0, 0); (1, 2)]%Z
     = Some "B C".
Proof.
  rewrite _get_refnames_candidates. by vm_compute.
Qed.

(** C7.  The mode flag changes nothing: sorting the mentions by the
    length of the pair [start, end] leaves every cluster as it is, so
    [_get_refnames] returns the same dictionary (or raises the same
    error) with [first=True] and [first=False], and so do the
    annotation renderer and the files written by [jsonlines2tei]. *)
Theorem mode_independence (fuel : nat) (doc : document)
    (xml_dir urs_dir : string) :
  (forall x : mention, mention_len x = 2)
  /\ (forall cl : cluster, Py.sorted_rev mention_len cl = cl)
  /\ _get_refnames fuel doc true = _get_refnames fuel doc false
  /\ _build_urs fuel doc true = _build_urs fuel doc false
  /\ jsonlines2tei fuel doc xml_dir urs_dir true
     = jsonlines2tei fuel doc xml_dir urs_dir false.
Proof.
  assert (_get_refnames fuel doc true = _get_refnames fuel doc false) as Hn.
  { rewrite !_get_refnames_candidates.
    apply candidates_ext. intros cl. symmetry. apply get_longest_first. }
  assert (_build_urs fuel doc true = _build_urs fuel doc false) as Hu.
  { unfold _build_urs. by rewrite Hn. }
  split_and!; try done.
  - intros cl. by apply sorted_rev_const.
  - unfold jsonlines2tei. by rewrite Hu.
Qed.

(** C8.  [_get_refnames] raises [IndexError] exactly when some cluster
    of the document has no mention, in both modes; when every cluster
    has a mention it returns a dictionary of names. *)
Theorem empty_cluster_raises (fuel : nat) (doc : document) (first : bool) :
  ([] ∈ clusters doc <-> _get_refnames fuel doc first = Raise IndexError)
  /\ ([] ∉ clusters doc <->
      exists names, _get_refnames fuel doc first = Return names).
Proof.
  assert (_get_refnames fuel doc first
          = candidates (first_text (tokens_of doc)) 0 (clusters doc)) as ->.
  { rewrite _get_refnames_candidates. destruct first; [done|].
    apply candidates_ext, get_longest_first. }
  destruct (decide ([] ∈ clusters doc)) as [Hin|Hnin].
  - rewrite candidates_first_raise by done.
    split; [done|]. split; [done|]. by intros [names ?].
  - destruct (candidates_first_return (tokens_of doc) 0 _ Hnin) as [d Hd].
    rewrite Hd. split; [split; by intros ?|].
    split; [by eauto | done].
Qed.

(** C8 on two documents: one with a chain that has no mention (both
    modes raise), and the document of the scenario (a dictionary is
    returned). *)
Lemma empty_cluster_raises_witness :
  _get_refnames 0 Examples.empty_chain true = Raise IndexError
  /\ _get_refnames 0 Examples.empty_chain false = Raise IndexError
  /\ exists names, _get_refnames 0 Examples.d1 false = Return names.
Proof.
  destruct (empty_cluster_raises 0 Examples.empty_chain true) as [[Ht _] _].
  destruct (empty_cluster_raises 0 Examples.empty_chain false) as [[Hf _] _].
  destruct (empty_cluster_raises 0 Examples.d1 false) as [_ [Hd _]].
  split; [|split].
  - apply Ht. apply (bool_decide_unpack _). by vm_compute.
  - apply Hf. apply (bool_decide_unpack _). by vm_compute.
  - apply Hd. apply (bool_decide_unpack _). by vm_compute.
Defined.

(** ** Text Renderer: the loops, position by position *)

Lemma bind_if {A B} (b : bool) (x y : A) (k : A -> outcome B) :
  bind (if b then Return x else Return y) k = k (if b then x else y).
Proof. by destruct b. Qed.

Section text_loops.

Variable doc : document.

Lemma token_step_spec s st t_local token :
  token_step doc s st t_local token =
    if tag_ok doc s t_local then
      Return {| ts_t := S (ts_t st); ts_p := ts_p st;
                ts_res := ts_res st
                          +:+ w_elem (ts_t st) token (tag_at doc s t_local) |}
    else Raise IndexError.
Proof.
  unfold token_step, tag_ok, tag_at, w_elem, Py.index.
  destruct (pos doc) as [tags|]; simpl.
  - destruct (tags !! s) as [row|]; simpl; [|done].
    destruct (row !! t_local) as [tag|]; simpl; [|done].
    by rewrite !str_app_assoc.
  - by rewrite !str_app_assoc.
Qed.

Lemma token_loop_spec s sent : forall t_local st,
  token_loop doc s t_local sent st =
    if forallb (tag_ok doc s) (seq t_local (length sent)) then
      Return {| ts_t := ts_t st + length sent; ts_p := ts_p st;
                ts_res := ts_res st
                  +:+ cat (imap (fun i token =>
                                   w_elem (ts_t st + i) token
                                          (tag_at doc s (t_local + i))) sent) |}
    else Raise IndexError.
Proof.
  induction sent as [|token rest IH]; intros t_local st.
  - destruct st as [t p res]. simpl.
    by rewrite Nat.add_0_r, str_app_nil_r.
  - cbn [token_loop length seq forallb].
    rewrite token_step_spec.
    destruct (tag_ok doc s t_local); [|done].
    cbn [bind andb]. rewrite IH.
    destruct (forallb _ _); [|done].
    cbn [ts_t ts_p ts_res]. f_equal. f_equal; [lia|].
    rewrite imap_cons, cat_cons, str_app_assoc, !Nat.add_0_r.
    do 3 f_equal. apply imap_ext. intros i x _. simpl.
    by rewrite !Nat.add_succ_r.
Qed.

Lemma sent_offset_S done sent rest :
  sentences doc = done ++ sent :: rest ->
  sent_offset doc (S (length done))
  = sent_offset doc (length done) + length sent.
Proof.
  intros Hs. unfold sent_offset. rewrite Hs.
  replace (S (length done)) with (length done + 1) by lia.
  rewrite take_app_add, take_app_length.
  rewrite sum_list_with_app. simpl. lia.
Qed.

Lemma sentence_loop_spec rest : forall done st,
  sentences doc = done ++ rest ->
  ts_t st = sent_offset doc (length done) ->
  ts_p st = breaks_before doc (length done) ->
  sentence_loop doc (pars_of doc) (length done) rest st =
    if sents_ok doc (length done) rest then
      Return {| ts_t := sent_offset doc (length (sentences doc));
                ts_p := breaks_before doc (length (sentences doc));
                ts_res := ts_res st
                  +:+ cat (imap (fun i sent =>
                                   s_elem doc (length done + i) sent
                                   +:+ par_mark doc (length done + i)) rest) |}
    else Raise IndexError.
Proof.
  induction rest as [|sent rest IH]; intros done st Hs Ht Hp.
  - rewrite app_nil_r in Hs. subst done.
    destruct st as [t p res]. simpl in *. subst.
    by rewrite str_app_nil_r.
  - cbn [sentence_loop sents_ok]. unfold sentence_step.
    rewrite token_loop_spec. cbn [ts_t ts_p ts_res].
    destruct (forallb _ _); [|done]. cbn [bind andb ts_t ts_p ts_res].
    pose proof (sent_offset_S done sent rest Hs) as Hoff.
    assert (sentences doc = (done ++ [sent]) ++ rest) as Hs'
      by (by rewrite <- (assoc_L (++))).
    assert (length (done ++ [sent]) = S (length done)) as Hlen
      by (rewrite length_app; simpl; lia).
    rewrite bind_if. rewrite <- Hlen.
    rewrite (IH (done ++ [sent])); [| done | |].
    + rewrite Hlen. destruct (sents_ok doc _ rest); [|done].
      f_equal. f_equal.
      rewrite imap_cons, cat_cons, Nat.add_0_r.
      assert (cat (imap (fun i sent0 =>
                s_elem doc (S (length done) + i) sent0
                +:+ par_mark doc (S (length done) + i)) rest)
              = cat (imap ((fun i sent0 =>
                s_elem doc (length done + i) sent0
                +:+ par_mark doc (length done + i)) ∘ S) rest)) as ->.
      { f_equal. apply imap_ext. intros i x _. simpl.
        by rewrite !Nat.add_succ_r. }
      unfold par_mark at 2, break_after, s_elem.
      rewrite Hoff, <- Ht, <- Hp.
      destruct (par_test _ _ _); cbn [ts_res];
        rewrite ?str_app_assoc, ?str_app_nil_l; done.
    + rewrite Hlen, Hoff, <- Ht. by destruct (par_test _ _ _).
    + rewrite Hlen. cbn [breaks_before]. rewrite Hoff, <- Ht, <- Hp.
      by destruct (par_test _ _ _).
Qed.

(** The rendered text as one expression. *)
Lemma _build_text_spec :
  _build_text doc =
    if text_ok doc then
      Return ("<text><p>"
              +:+ cat (imap (fun s sent => s_elem doc s sent +:+ par_mark doc s)
                            (sentences doc))
              +:+ "</p></text>")
    else Raise IndexError.
Proof.
  unfold _build_text, text_ok.
  rewrite (sentence_loop_spec (sentences doc) [] _); [|done..].
  simpl. destruct (sents_ok doc 0 (sentences doc)); [|done].
  simpl. by rewrite !str_app_assoc.
Qed.

End text_loops.

(** ** Annotation Renderer: the loops, position by position *)

Section urs_loops.

Lemma mention_step_spec st x :
  mention_step st x =
    {| us_n := S (us_n st);
       us_res := us_res st +:+ span_elem (us_n st) x;
       us_div := us_div st +:+ mention_fs (us_n st) |}.
Proof.
  unfold mention_step, mention_fs. by rewrite !str_app_assoc.
Qed.

Lemma foldl_mention_step_spec cl : forall st,
  foldl mention_step st cl =
    {| us_n := us_n st + length cl;
       us_res := us_res st
                 +:+ cat (imap (fun k x => span_elem (us_n st + k) x) cl);
       us_div := us_div st
                 +:+ cat (imap (fun k _ => mention_fs (us_n st + k)) cl) |}.
Proof.
  induction cl as [|x cl IH]; intros st.
  - destruct st. simpl. by rewrite Nat.add_0_r, !str_app_nil_r.
  - cbn [foldl]. rewrite IH, mention_step_spec. cbn [us_n us_res us_div length].
    rewrite !imap_cons, !cat_cons, !str_app_assoc, !Nat.add_0_r.
    f_equal; [lia| |].
    + do 3 f_equal. apply imap_ext. intros k y _. simpl.
      by rewrite Nat.add_succ_r.
    + do 3 f_equal. apply imap_ext. intros k y _. simpl.
      by rewrite Nat.add_succ_r.
Qed.

Lemma mention_loop_spec cls : forall st,
  mention_loop cls st =
    {| us_n := us_n st + length (concat cls);
       us_res := us_res st
                 +:+ cat (imap (fun m x => span_elem (us_n st + m) x)
                               (concat cls));
       us_div := us_div st
                 +:+ cat (imap (fun m _ => mention_fs (us_n st + m))
                               (concat cls)) |}.
Proof.
  induction cls as [|cl cls IH]; intros st.
  - destruct st. simpl. by rewrite Nat.add_0_r, !str_app_nil_r.
  - cbn [mention_loop concat]. rewrite IH, foldl_mention_step_spec.
    cbn [us_n us_res us_div].
    rewrite !imap_app, !cat_app, !str_app_assoc, length_app.
    f_equal; [lia| |].
    + do 3 f_equal. apply imap_ext. intros k y _. simpl.
      by rewrite Nat.add_assoc.
    + do 3 f_equal. apply imap_ext. intros k y _. simpl.
      by rewrite Nat.add_assoc.
Qed.

Lemma chain_target_seq offset cl :
  chain_target offset cl =
    Py.join " " ((fun m => "#" +:+ mention_id m) <$> seq offset (length cl)).
Proof.
  unfold chain_target. f_equal.
  assert (seq offset (length cl) = Nat.add offset <$> seq 0 (length cl))
    as -> by (by rewrite fmap_add_seq, Nat.add_0_r).
  rewrite <- list_fmap_compose.
  apply list_fmap_ext. intros i m _. simpl. by rewrite Nat.add_comm.
Qed.

Lemma chain_step_spec st c cl :
  chain_step st c cl =
    {| us_n := us_n st + length cl;
       us_res := us_res st +:+ link_elem c (chain_target (us_n st) cl);
       us_div := us_div st +:+ chain_fs c cl |}.
Proof.
  unfold chain_step, chain_fs. by rewrite !str_app_assoc.
Qed.

Lemma first_id_S (done : list cluster) cl rest :
  first_id (done ++ cl :: rest) (S (length done))
  = first_id (done ++ cl :: rest) (length done) + length cl.
Proof.
  unfold first_id.
  replace (S (length done)) with (length done + 1) by lia.
  rewrite take_app_add, take_app_length.
  rewrite concat_app, length_app. simpl. rewrite length_app. simpl. lia.
Qed.

Lemma chain_loop_spec cls rest : forall done st,
  cls = done ++ rest ->
  us_n st = first_id cls (length done) ->
  chain_loop (length done) rest st =
    {| us_n := first_id cls (length cls);
       us_res := us_res st
         +:+ cat (imap (fun i cl =>
                          link_elem (length done + i)
                            (chain_target (first_id cls (length done + i)) cl))
                       rest);
       us_div := us_div st
         +:+ cat (imap (fun i cl => chain_fs (length done + i) cl) rest) |}.
Proof.
  induction rest as [|cl rest IH]; intros done st Hcls Hn.
  - rewrite app_nil_r in Hcls. subst done. destruct st. simpl in *. subst.
    by rewrite !str_app_nil_r.
  - cbn [chain_loop]. rewrite chain_step_spec.
    assert (length (done ++ [cl]) = S (length done)) as Hlen
      by (rewrite length_app; simpl; lia).
    rewrite <- Hlen.
    rewrite (IH (done ++ [cl])).
    + cbn [us_n us_res us_div].
      rewrite !imap_cons, !cat_cons, !str_app_assoc, !Nat.add_0_r, Hlen, Hn.
      f_equal.
      * do 3 f_equal. apply imap_ext. intros i y _. simpl.
        by rewrite !Nat.add_succ_r.
      * do 3 f_equal. apply imap_ext. intros i y _. simpl.
        by rewrite !Nat.add_succ_r.
    + by rewrite <- (assoc_L (++)).
    + cbn [us_n]. rewrite Hlen, Hn, Hcls. by rewrite first_id_S.
Qed.

(** The mentions of cluster [c] stand, in order, from position
    [first_id cls c] of the flattened list of mentions. *)
Lemma concat_lookup_first_id (cls : list cluster) c cl k :
  cls !! c = Some cl -> k < length cl ->
  concat cls !! (first_id cls c + k) = cl !! k.
Proof.
  intros Hc Hk. unfold first_id.
  set (n := length (concat (take c cls))).
  assert (concat cls = concat (take c cls) ++ cl ++ concat (drop (S c) cls))
    as ->.
  { rewrite <- (take_drop_middle cls c cl Hc) at 1.
    by rewrite concat_app, concat_cons. }
  rewrite lookup_app_r by (subst n; lia).
  replace (n + k - length (concat (take c cls))) with k by (subst n; lia).
  by rewrite lookup_app_l.
Qed.

End urs_loops.

Section urs_whole.

Lemma _build_urs_spec fuel doc first :
  _build_urs fuel doc first =
    if bool_decide ([] ∈ clusters doc) then Raise IndexError
    else Return (urs_xml (clusters doc)).
Proof.
  unfold _build_urs.
  assert (_get_refnames fuel doc first
          = candidates (first_text (tokens_of doc)) 0 (clusters doc)) as ->.
  { rewrite _get_refnames_candidates. destruct first; [done|].
    apply candidates_ext, get_longest_first. }
  case_bool_decide as Hin.
  - by rewrite candidates_first_raise.
  - destruct (candidates_first_return (tokens_of doc) 0 _ Hin) as [d ->].
    cbn [bind]. f_equal.
    rewrite mention_loop_spec.
    rewrite (chain_loop_spec (clusters doc) (clusters doc) []); [|done..].
    cbn [us_n us_res us_div length Nat.add].
    unfold urs_xml. rewrite !str_app_assoc.
    do 12 f_equal.
    assert (imap (fun i cl =>
                    link_elem i (chain_target (first_id (clusters doc) i) cl))
                 (clusters doc)
            = imap (fun c cl =>
                      link_elem c
                        (Py.join " " ((fun m => "#" +:+ mention_id m)
                           <$> seq (first_id (clusters doc) c) (length cl))))
                   (clusters doc)) as ->; [|done].
    apply imap_ext. intros i cl _. simpl. by rewrite chain_target_seq.
Qed.

End urs_whole.

(** ** The flattened token list *)

Lemma tokens_lookup_offset doc s sent t_local token :
  sentences doc !! s = Some sent -> sent !! t_local = Some token ->
  tokens_of doc !! (sent_offset doc s + t_local) = Some token.
Proof.
  intros Hs Ht. unfold tokens_of, sent_offset.
  assert (forall l : list (list string),
            sum_list_with length l = length (concat l)) as Hsum.
  { induction l as [|x l IH]; simpl; [done|]. rewrite length_app. lia. }
  rewrite Hsum.
  pose proof (lookup_lt_Some _ _ _ Ht) as Hlt.
  assert (concat (sentences doc)
          = concat (take s (sentences doc)) ++ sent
            ++ concat (drop (S s) (sentences doc))) as ->.
  { rewrite <- (take_drop_middle (sentences doc) s sent Hs) at 1.
    by rewrite concat_app, concat_cons. }
  rewrite lookup_app_r by lia.
  replace (length (concat (take s (sentences doc))) + t_local
           - length (concat (take s (sentences doc)))) with t_local by lia.
  by rewrite lookup_app_l.
Qed.

(** [str] of a natural number and of the same integer. *)
Lemma str_int_of_nat (t : nat) : Py.str_int (Z.of_nat t) = Py.str_nat t.
Proof.
  unfold Py.str_int, Py.str_nat, pretty, pretty_Z, pretty_nat.
  destruct t as [|t]; [done|]. simpl. done.
Qed.

Lemma token_ref_word_id (t : nat) :
  token_ref (Z.of_nat t) = "text:" +:+ word_id t.
Proof. unfold token_ref, word_id. by rewrite str_int_of_nat. Qed.

(** ** Escaping *)

Section escaping.

Lemma replace_char_app c r s1 s2 :
  Py.replace_char c r (s1 +:+ s2)
  = Py.replace_char c r s1 +:+ Py.replace_char c r s2.
Proof.
  induction s1 as [|a s1 IH]; [done|].
  rewrite str_app_cons. simpl. rewrite IH.
  destruct (Ascii.eqb a c); [by rewrite str_app_assoc | done].
Qed.

(** [escape] works character by character. *)
Lemma escape_cons c s :
  Py.escape (String c s) = escaped_char c +:+ Py.escape s.
Proof.
  unfold Py.escape, escaped_char. cbn [Py.replace_char].
  destruct (Ascii.eqb_spec c "&") as [->|Hamp].
  - by rewrite !replace_char_app.
  - cbn [Py.replace_char].
    destruct (Ascii.eqb_spec c ">") as [->|Hgt].
    + by rewrite !replace_char_app.
    + cbn [Py.replace_char].
      destruct (Ascii.eqb_spec c "<") as [->|Hlt]; [|done].
      cbn [Py.replace_char]. done.
Qed.

Lemma prefix_nil s : String.prefix "" s = true.
Proof. by destruct s. Qed.

Lemma xml_safe_escape s : xml_safe (Py.escape s) = true.
Proof.
  induction s as [|c s IH]; [done|].
  rewrite escape_cons. unfold escaped_char.
  destruct (Ascii.eqb_spec c "&") as [->|Hamp].
  { rewrite !str_app_cons, str_app_nil_l. simpl. by rewrite prefix_nil. }
  destruct (Ascii.eqb_spec c "<") as [->|Hlt].
  { rewrite !str_app_cons, str_app_nil_l. simpl. by rewrite prefix_nil. }
  destruct (Ascii.eqb_spec c ">") as [->|Hgt].
  { rewrite !str_app_cons, str_app_nil_l. simpl. by rewrite prefix_nil. }
  rewrite str_app_cons, str_app_nil_l. cbn [xml_safe].
  rewrite (proj2 (Ascii.eqb_neq c "<")), (proj2 (Ascii.eqb_neq c ">")),
    (proj2 (Ascii.eqb_neq c "&")) by done.
  done.
Qed.

Lemma xml_safe_lt_free s : xml_safe s = true -> lt_free s = true.
Proof.
  induction s as [|c s IH]; [done|]. cbn [xml_safe lt_free].
  destruct (Ascii.eqb c "<"); [done|].
  destruct (Ascii.eqb c ">"); [done|].
  destruct (Ascii.eqb c "&"); simpl; [|done].
  intros [_ ?]%andb_prop. auto.
Qed.

End escaping.

(** ** Strings with no paragraph tag *)

Section p_tags.

Lemma lt_free_p_tag_free s : lt_free s = true -> p_tag_free s = true.
Proof.
  induction s as [|c s IH]; [done|]. cbn [lt_free p_tag_free].
  destruct (Ascii.eqb c "<"); simpl; [done|]. auto.
Qed.

Lemma lt_free_app s1 s2 :
  lt_free s1 = true -> lt_free s2 = true -> lt_free (s1 +:+ s2) = true.
Proof.
  intros H1 H2. induction s1 as [|c s1 IH]; [done|].
  rewrite str_app_cons. cbn [lt_free] in *.
  apply andb_prop in H1 as [-> H1]. simpl. auto.
Qed.

Lemma p_tag_free_app s1 s2 :
  p_tag_free s1 = true -> p_tag_free s2 = true ->
  p_tag_free (s1 +:+ s2) = true.
Proof.
  intros H1 H2. induction s1 as [|c s1 IH]; [done|].
  rewrite str_app_cons. cbn [p_tag_free] in *.
  apply andb_prop in H1 as [Hc H1]. rewrite IH by done.
  rewrite andb_true_r.
  destruct (Ascii.eqb c "<"); [|done].
  destruct s1 as [|d s1]; [done|]. by rewrite str_app_cons.
Qed.

Lemma p_tag_free_cat (l : list string) :
  Forall (fun s => p_tag_free s = true) l -> p_tag_free (cat l) = true.
Proof.
  induction 1 as [|s l Hs _ IH]; [done|].
  rewrite cat_cons. by apply p_tag_free_app.
Qed.

Lemma occurrences_p_tag_free s :
  p_tag_free s = true -> occurrences "<p>" s = 0.
Proof.
  induction s as [|c s IH]; [done|]. cbn [p_tag_free occurrences].
  intros [Hc Hs]%andb_prop. rewrite IH by done.
  cbn [String.prefix].
  destruct (ascii_dec "<" c) as [<-|_]; [|done].
  simpl in Hc. destruct s as [|d s]; [done|].
  cbn [String.prefix].
  destruct (ascii_dec "p" d) as [<-|_]; [done|done].
Qed.

(** The decimal digits of a number. *)
Lemma lt_free_pretty_N_go (x : N) : forall s,
  lt_free s = true -> lt_free (pretty_N_go x s) = true.
Proof.
  induction (N.lt_wf_0 x) as [x _ IH]. intros s Hs.
  destruct (decide (x = 0)%N) as [->|Hx].
  - by rewrite pretty_N_go_0.
  - rewrite pretty_N_go_step by lia.
    apply IH; [apply N.div_lt; lia|].
    cbn [lt_free]. rewrite Hs, andb_true_r.
    unfold pretty_N_char. by repeat case_match.
Qed.

Lemma lt_free_str_nat n : lt_free (Py.str_nat n) = true.
Proof.
  unfold Py.str_nat, pretty, pretty_nat, pretty, pretty_N.
  case_decide; [done|]. by apply lt_free_pretty_N_go.
Qed.

Lemma p_tag_free_str_nat n : p_tag_free (Py.str_nat n) = true.
Proof. apply lt_free_p_tag_free, lt_free_str_nat. Qed.

Lemma p_tag_free_escape s : p_tag_free (Py.escape s) = true.
Proof. apply lt_free_p_tag_free, xml_safe_lt_free, xml_safe_escape. Qed.

(** Splits a concatenation into its pieces and closes the literal
    ones, the numbers and the escaped texts. *)
Ltac p_tag_free_pieces :=
  repeat apply p_tag_free_app;
  first [ apply p_tag_free_str_nat | apply p_tag_free_escape
        | reflexivity | idtac ].

Lemma p_tag_free_w_elem t token tag :
  p_tag_free (w_elem t token tag) = true.
Proof.
  unfold w_elem, w_open, txm_form, word_id, quoted.
  p_tag_free_pieces.
  destruct tag as [tag|]; [|done]. unfold from_option, txm_ana, quoted.
  p_tag_free_pieces.
Qed.

Lemma p_tag_free_imap {A} (f : nat -> A -> string) (l : list A) :
  (forall i x, p_tag_free (f i x) = true) ->
  p_tag_free (cat (imap f l)) = true.
Proof.
  intros Hf. apply p_tag_free_cat.
  apply Forall_forall. intros s [i [x [-> _]]]%elem_of_lookup_imap. apply Hf.
Qed.

Lemma p_tag_free_s_elem doc s sent : p_tag_free (s_elem doc s sent) = true.
Proof.
  unfold s_elem, s_open, quoted.
  p_tag_free_pieces.
  apply p_tag_free_imap. intros. apply p_tag_free_w_elem.
Qed.

Lemma occurrences_text_wrap body :
  p_tag_free body = true ->
  occurrences "<p>" ("<text><p>" +:+ body +:+ "</p></text>") = 1.
Proof.
  intros Hbody. rewrite !str_app_cons, str_app_nil_l.
  cbn [occurrences String.prefix]. simpl. rewrite prefix_nil.
  rewrite occurrences_p_tag_free; [done|]. by apply p_tag_free_app.
Qed.

End p_tags.

(** ** File names *)

Section file_names.

(** The class of the pattern is the class of the documentation. *)
Lemma name_char_spec_class c : name_char c = spec_class c.
Proof. destruct c as [[] [] [] [] [] [] [] []]; reflexivity. Qed.

Lemma re_sub_class_spec s :
  list_ascii_of_string (re_sub_class (fun c => negb (name_char c)) "_" s)
  = spec_replace (list_ascii_of_string s).
Proof.
  induction s as [|a s IH]; [done|]. cbn [re_sub_class].
  unfold spec_replace in *. cbn [list_ascii_of_string fmap list_fmap].
  rewrite <- IH, <- name_char_spec_class. by destruct (name_char a).
Qed.

Lemma spec_collapse_cons2 a b l :
  spec_collapse (a :: b :: l) =
    if Ascii.eqb a "_" && Ascii.eqb b "_" then spec_collapse (b :: l)
    else a :: spec_collapse (b :: l).
Proof. reflexivity. Qed.

Lemma spec_collapse_other a l :
  a <> "_"%char -> spec_collapse (a :: l) = a :: spec_collapse l.
Proof.
  intros Ha. destruct l as [|b l]; [done|].
  rewrite spec_collapse_cons2.
  by rewrite (proj2 (Ascii.eqb_neq a "_")).
Qed.

Lemma re_sub_plus_spec s :
  list_ascii_of_string (re_sub_plus "_" "_" false s)
  = spec_collapse (list_ascii_of_string s)
  /\ "_"%char :: list_ascii_of_string (re_sub_plus "_" "_" true s)
     = spec_collapse ("_"%char :: list_ascii_of_string s).
Proof.
  induction s as [|a s [IH1 IH2]]; [done|].
  cbn [re_sub_plus list_ascii_of_string].
  destruct (Ascii.eqb_spec a "_") as [->|Ha].
  - split; [exact IH2|]. by rewrite IH2, spec_collapse_cons2.
  - cbn [list_ascii_of_string]. rewrite IH1.
    split; [by rewrite spec_collapse_other|].
    rewrite spec_collapse_cons2, (proj2 (Ascii.eqb_neq a "_")) by done.
    by rewrite andb_false_r, spec_collapse_other.
Qed.

Lemma file_stem_spec key : file_stem key = spec_stem key.
Proof.
  unfold file_stem, spec_stem.
  rewrite <- re_sub_class_spec, <- (proj1 (re_sub_plus_spec _)).
  by rewrite string_of_list_ascii_of_string.
Qed.

End file_names.

(** The stem holds characters of the class only, and no run of
    underscores. *)
Section stems.

Local Abbreviation outside := (fun c => negb (name_char c)).

Lemma re_sub_class_all s :
  all_chars name_char (re_sub_class outside "_" s) = true.
Proof.
  induction s as [|a s IH]; [done|]. cbn [re_sub_class].
  destruct (name_char a) eqn:Ha; cbn [negb].
  - cbn [all_chars]. by rewrite Ha, IH.
  - rewrite str_app_cons, str_app_nil_l. cbn [all_chars]. by rewrite IH.
Qed.

Lemma re_sub_plus_all P s : forall b,
  all_chars P s = true -> all_chars P (re_sub_plus "_" "_" b s) = true.
Proof.
  induction s as [|a s IH]; intros b; [done|]. cbn [all_chars re_sub_plus].
  intros [Ha Hs]%andb_prop.
  destruct (Ascii.eqb a "_") eqn:Heq.
  - apply Ascii.eqb_eq in Heq as ->. destruct b; [by apply IH|].
    rewrite str_app_cons, str_app_nil_l. cbn [all_chars].
    by rewrite Ha, IH.
  - cbn [all_chars]. by rewrite Ha, IH.
Qed.

Lemma re_sub_plus_no_run s : forall b,
  occurrences "__" (re_sub_plus "_" "_" b s) = 0
  /\ String.prefix "_" (re_sub_plus "_" "_" true s) = false.
Proof.
  induction s as [|a s IH]; intros b; [done|]. cbn [re_sub_plus].
  destruct (Ascii.eqb_spec a "_") as [->|Ha].
  - split; [|apply (IH true)]. destruct b; [apply IH|].
    rewrite str_app_cons, str_app_nil_l. cbn [occurrences String.prefix].
    destruct (ascii_dec "_" "_"); [|done].
    destruct (IH true) as [-> Hp]. cbn [String.prefix] in Hp.
    by rewrite Hp.
  - split.
    + cbn [occurrences String.prefix].
      destruct (ascii_dec "_" a) as [<-|]; [done|].
      by rewrite (proj1 (IH false)).
    + cbn [String.prefix]. by destruct (ascii_dec "_" a) as [<-|].
Qed.

Lemma re_sub_class_id s :
  all_chars name_char s = true -> re_sub_class outside "_" s = s.
Proof.
  induction s as [|a s IH]; [done|]. cbn [all_chars re_sub_class].
  intros [-> Hs]%andb_prop. cbn [negb]. by rewrite IH.
Qed.

Lemma re_sub_plus_id s :
  occurrences "__" s = 0 ->
  re_sub_plus "_" "_" false s = s
  /\ (String.prefix "_" s = false -> re_sub_plus "_" "_" true s = s).
Proof.
  induction s as [|a s IH]; [done|]. cbn [occurrences re_sub_plus].
  intros Hocc.
  assert (occurrences "__" s = 0) as Hs by lia.
  destruct (IH Hs) as [IH1 IH2].
  destruct (Ascii.eqb_spec a "_") as [->|Ha].
  - assert (String.prefix "_" s = false) as Hp.
    { cbn [String.prefix] in Hocc. destruct (ascii_dec "_" "_"); [|done].
      destruct s as [|c s]; [done|]. cbn [String.prefix] in *.
      destruct (ascii_dec "_" c); [|done].
      rewrite prefix_nil in Hocc. lia. }
    split.
    + rewrite str_app_cons, str_app_nil_l. by rewrite IH2.
    + cbn [String.prefix].
      destruct (ascii_dec "_" "_"); [by rewrite prefix_nil | done].
  - split; [by rewrite IH1|]. intros _. by rewrite IH1.
Qed.

Lemma re_sub_class_length s :
  String.length (re_sub_class outside "_" s) = String.length s.
Proof.
  induction s as [|a s IH]; [done|]. cbn [re_sub_class].
  destruct (negb (name_char a));
    rewrite ?str_app_cons, ?str_app_nil_l; cbn [String.length];
    by rewrite IH.
Qed.

Lemma re_sub_plus_length s : forall b,
  String.length (re_sub_plus "_" "_" b s) <= String.length s.
Proof.
  induction s as [|a s IH]; intros b; [done|]. cbn [re_sub_plus].
  pose proof (IH true) as IHt. pose proof (IH false) as IHf.
  destruct (Ascii.eqb a "_"); [destruct b|];
    rewrite ?str_app_cons, ?str_app_nil_l; cbn [String.length]; lia.
Qed.

End stems.

(** ** Pieces of a rendered string *)

Section pieces_of_strings.

Lemma contains_refl s : contains s s.
Proof. exists "", "". by rewrite str_app_nil_l, str_app_nil_r. Qed.

Lemma contains_app_l piece s t : contains piece s -> contains piece (s +:+ t).
Proof.
  intros (pre & post & ->). exists pre, (post +:+ t).
  by rewrite !str_app_assoc.
Qed.

Lemma contains_app_r piece s t : contains piece t -> contains piece (s +:+ t).
Proof.
  intros (pre & post & ->). exists (s +:+ pre), post.
  by rewrite !str_app_assoc.
Qed.

Lemma contains_cat_imap {A} (f : nat -> A -> string) (l : list A) :
  forall i x, l !! i = Some x -> contains (f i x) (cat (imap f l)).
Proof.
  revert f. induction l as [|y l IH]; intros f i x Hi; [done|].
  rewrite imap_cons, cat_cons. destruct i as [|i].
  - injection Hi as ->. apply contains_app_l, contains_refl.
  - apply contains_app_r. exact (IH (f ∘ S) i x Hi).
Qed.

End pieces_of_strings.

(** Finds the list of elements that holds the piece, among the parts
    of a concatenation. *)
Ltac find_piece tac :=
  lazymatch goal with
  | |- contains _ (_ +:+ _) =>
      first [ apply contains_app_l; find_piece tac
            | apply contains_app_r; find_piece tac ]
  | |- contains _ (cat (imap _ _)) => tac
  end.

(** ** The claims on the renderers and the driver *)

(** C2 (the code departs from the claim).  For the document of the
    documentation, whose one chain is named "A", the three feature
    structures of the annotations (two mentions, one chain) carry as REF
    the text of the source line that was meant to be interpolated, and
    the name "A" stands in no REF feature. *)
Theorem ref_feature_not_interpolated (fuel : nat) :
  exists out,
    _get_refnames fuel Examples.d1 true = Return [(0, "A")]
    /\ _build_urs fuel Examples.d1 true = Return out
    /\ occurrences "<string>{escape(names[id(cluster)])}</string>" out = 3
    /\ occurrences "<string>A</string>" out = 0.
Proof.
  rewrite _build_urs_spec, _get_refnames_candidates.
  eexists. split; [by vm_compute|]. split; [by vm_compute|].
  by vm_compute.
Qed.

(** C4.  The token at sentence [s], place [t_local] is written with the
    id [w_export_T] where [T] is the number of tokens of the sentences
    before [s] plus [t_local]; [T] is also the position of that token in
    the flattened token list that mention bounds index.  The annotation
    renderer returns whenever no cluster is empty, and what it returns
    holds, for the mention number [m] with bounds [start, end], the span
    [u-MENTION-m] whose [from] and [to] are [text:w_export_start] and
    [text:w_export_end]; for a bound [T] this is the id given to the
    token of index [T]. *)
Theorem token_index_agreement (fuel : nat) (doc : document) (first : bool) :
  _build_text doc =
    (if text_ok doc then
       Return ("<text><p>"
               +:+ cat (imap (fun s sent =>
                     (s_open s
                      +:+ cat (imap (fun t_local token =>
                            w_elem (sum_list_with length (take s (sentences doc))
                                    + t_local)
                                   token (tag_at doc s t_local)) sent)
                      +:+ "</s>")
                     +:+ par_mark doc s) (sentences doc))
               +:+ "</p></text>")
     else Raise IndexError)
  /\ (forall t token tag,
        w_elem t token tag =
          "<w id=" +:+ quoted ("w_export_" +:+ Py.str_nat t)
          +:+ " n=" +:+ quoted (Py.str_nat t) +:+ ">"
          +:+ "<txm:form>" +:+ Py.escape token +:+ "</txm:form>"
          +:+ from_option txm_ana "" tag +:+ "</w>")
  /\ (forall s sent t_local token,
        sentences doc !! s = Some sent -> sent !! t_local = Some token ->
        tokens_of doc !! (sum_list_with length (take s (sentences doc)) + t_local)
        = Some token)
  /\ ([] ∉ clusters doc ->
      exists urs,
        _build_urs fuel doc first = Return urs
        /\ forall m start stop,
             concat (clusters doc) !! m = Some (start, stop) ->
             contains
               ("<span id=" +:+ quoted ("u-MENTION-" +:+ Py.str_nat m)
                +:+ " from=" +:+ quoted ("text:w_export_" +:+ Py.str_int start)
                +:+ " to=" +:+ quoted ("text:w_export_" +:+ Py.str_int stop)
                +:+ " ana=" +:+ quoted ("#u-MENTION-" +:+ Py.str_nat m +:+ "-fs")
                +:+ "/>")
               urs)
  /\ (forall t : nat,
        "text:w_export_" +:+ Py.str_int (Z.of_nat t)
        = "text:" +:+ ("w_export_" +:+ Py.str_nat t)).
Proof.
  split_and!.
  - exact (_build_text_spec doc).
  - intros. unfold w_elem, w_open, word_id, txm_form.
    by rewrite !str_app_assoc.
  - apply tokens_lookup_offset.
  - intros Hnin. rewrite _build_urs_spec.
    rewrite bool_decide_eq_false_2 by done. eexists. split; [done|].
    intros m start stop Hm. unfold urs_xml.
    find_piece ltac:(exact (contains_cat_imap (fun m x => span_elem m x)
                              _ m (start, stop) Hm)).
  - intros t. by rewrite str_int_of_nat.
Qed.

(** C4 on the document of the scenario: the tokens A, B, C get the ids
    0, 1, 2, and the span of the mention [2, 2] points from and to the
    id of C. *)
Lemma token_index_agreement_witness :
  _build_text Examples.d1
  = Return ("<text><p>"
            +:+ s_open 0 +:+ w_elem 0 "A" None +:+ w_elem 1 "B" None +:+ "</s>"
            +:+ s_open 1 +:+ w_elem 2 "C" None +:+ "</s>"
            +:+ "</p></text>")
  /\ tokens_of Examples.d1 !! 2 = Some "C"
  /\ (exists urs,
        _build_urs 0 Examples.d1 true = Return urs
        /\ contains
             ("<span id=" +:+ quoted "u-MENTION-1"
              +:+ " from=" +:+ quoted "text:w_export_2"
              +:+ " to=" +:+ quoted "text:w_export_2"
              +:+ " ana=" +:+ quoted "#u-MENTION-1-fs" +:+ "/>")
             urs)
  /\ "text:w_export_" +:+ Py.str_int 2 = "text:" +:+ ("w_export_" +:+ Py.str_nat 2).
Proof.
  destruct (token_index_agreement 0 Examples.d1 true)
    as (Htext & _ & Htok & Hurs & Href).
  split; [|split; [|split]].
  - rewrite Htext. by vm_compute.
  - exact (Htok 1 ["C"] 0 "C" eq_refl eq_refl).
  - assert ([] ∉ clusters Examples.d1) as Hnin
      by (apply (bool_decide_unpack _); by vm_compute).
    destruct (Hurs Hnin) as (urs & Hrun & Hspan).
    exists urs. split; [exact Hrun|].
    exact (Hspan 1 2%Z 2%Z eq_refl).
  - exact (Href 2).
Defined.

(** C5.  The annotation renderer returns whenever no cluster is empty.
    What it returns holds one span per mention, numbered from 0 in the
    order of the flattened clusters.  For the cluster [c] it holds the
    link [s-CHAINE-c] whose target lists the ids
    [#u-MENTION-first .. #u-MENTION-(first + len - 1)], as many as the
    cluster has mentions, where [first] is the number of mentions of
    the clusters before [c]; the span of id [first + k] is the span of
    the mention [k] of the cluster, with its bounds; and the feature
    structure of the chain carries NB MAILLONS = the number of mentions
    of the cluster. *)
Theorem chain_targets_cluster_mentions (fuel : nat) (doc : document)
    (first : bool) :
  _build_urs fuel doc first =
    (if bool_decide ([] ∈ clusters doc) then Raise IndexError
     else Return (
       "<standOff><annotations type=" +:+ quoted "coreference" +:+ ">"
       +:+ ("<annotationGrp type=" +:+ quoted "Unit"
            +:+ " subtype=" +:+ quoted "MENTION" +:+ ">"
            +:+ cat (imap (fun m x => span_elem m x) (concat (clusters doc)))
            +:+ "</annotationGrp>"
            +:+ "<annotationGrp type=" +:+ quoted "Schema"
            +:+ " subtype=" +:+ quoted "CHAINE" +:+ ">"
            +:+ cat (imap (fun c cl =>
                  link_elem c
                    (Py.join " "
                       ((fun m => "#" +:+ mention_id m)
                          <$> seq (length (concat (take c (clusters doc))))
                                  (length cl))))
                  (clusters doc))
            +:+ "</annotationGrp>")
       +:+ ("<div type=" +:+ quoted "unit-fs" +:+ ">"
            +:+ cat (imap (fun m _ => mention_fs m) (concat (clusters doc)))
            +:+ "</div>"
            +:+ "<div type=" +:+ quoted "relation-fs" +:+ "/>"
            +:+ "<div type=" +:+ quoted "schema-fs" +:+ ">"
            +:+ cat (imap (fun c cl =>
                  "<fs id=" +:+ quoted (chain_id c +:+ "-fs") +:+ ">"
                  +:+ ref_feature
                  +:+ ("<f name=" +:+ quoted "NB MAILLONS" +:+ "><string>"
                       +:+ Py.str_nat (length cl) +:+ "</string></f>")
                  +:+ "</fs>") (clusters doc))
            +:+ "</div>")
       +:+ "</annotations></standOff>"))
  /\ ([] ∉ clusters doc ->
      exists urs,
        _build_urs fuel doc first = Return urs
        /\ forall (c : nat) (cl : cluster),
             clusters doc !! c = Some cl ->
             contains
               ("<link id=" +:+ quoted ("s-CHAINE-" +:+ Py.str_nat c)
                +:+ " target="
                +:+ quoted (Py.join " "
                      ((fun m => "#u-MENTION-" +:+ Py.str_nat m)
                         <$> seq (length (concat (take c (clusters doc))))
                                 (length cl)))
                +:+ " ana=" +:+ quoted ("#s-CHAINE-" +:+ Py.str_nat c +:+ "-fs")
                +:+ "/>")
               urs
             /\ contains
                  ("<fs id=" +:+ quoted ("s-CHAINE-" +:+ Py.str_nat c +:+ "-fs")
                   +:+ ">"
                   +:+ "<f name=" +:+ quoted "REF" +:+ "><string>"
                   +:+ "{escape(names[id(cluster)])}</string></f>"
                   +:+ "<f name=" +:+ quoted "NB MAILLONS" +:+ "><string>"
                   +:+ Py.str_nat (length cl) +:+ "</string></f>"
                   +:+ "</fs>")
                  urs
             /\ forall (k : nat) (start stop : Z),
                  cl !! k = Some (start, stop) ->
                  concat (clusters doc)
                    !! (length (concat (take c (clusters doc))) + k)
                  = Some (start, stop)
                  /\ contains
                       ("<span id="
                        +:+ quoted ("u-MENTION-"
                              +:+ Py.str_nat
                                    (length (concat (take c (clusters doc))) + k))
                        +:+ " from="
                        +:+ quoted ("text:w_export_" +:+ Py.str_int start)
                        +:+ " to="
                        +:+ quoted ("text:w_export_" +:+ Py.str_int stop)
                        +:+ " ana="
                        +:+ quoted ("#u-MENTION-"
                              +:+ Py.str_nat
                                    (length (concat (take c (clusters doc))) + k)
                              +:+ "-fs")
                        +:+ "/>")
                       urs)
  /\ (forall (c : nat) (cl : cluster),
        length ((fun m => "#u-MENTION-" +:+ Py.str_nat m)
                  <$> seq (length (concat (take c (clusters doc)))) (length cl))
        = length cl).
Proof.
  split_and!.
  - exact (_build_urs_spec fuel doc first).
  - intros Hnin. rewrite _build_urs_spec.
    rewrite bool_decide_eq_false_2 by done. eexists. split; [done|].
    intros c cl Hc. unfold urs_xml. split_and!.
    + find_piece ltac:(exact (contains_cat_imap
        (fun c (cl : cluster) =>
           link_elem c
             (Py.join " " ((fun m => "#" +:+ mention_id m)
                             <$> seq (first_id (clusters doc) c) (length cl))))
        _ c cl Hc)).
    + pose proof (contains_cat_imap (fun c cl => chain_fs c cl) _ c cl Hc)
        as Hfs.
      unfold chain_fs, nb_maillons, ref_feature, chain_id in Hfs.
      rewrite !str_app_assoc in Hfs.
      find_piece ltac:(exact Hfs).
    + intros k start stop Hk.
      assert (concat (clusters doc)
                !! (length (concat (take c (clusters doc))) + k)
              = Some (start, stop)) as Hm.
      { rewrite <- Hk. apply concat_lookup_first_id; [done|].
        by apply lookup_lt_Some in Hk. }
      split; [exact Hm|].
      find_piece ltac:(exact (contains_cat_imap (fun m x => span_elem m x)
                                _ _ (start, stop) Hm)).
  - intros c cl. by rewrite length_fmap, length_seq.
Qed.

(** C5 on a document with a chain of two mentions and a chain of one:
    the second chain targets mention 2, the span of its only mention,
    and counts one mention. *)
Lemma chain_targets_cluster_mentions_witness :
  exists urs,
    _build_urs 0 Examples.two_chains true = Return urs
    /\ contains
         ("<link id=" +:+ quoted "s-CHAINE-1"
          +:+ " target=" +:+ quoted "#u-MENTION-2"
          +:+ " ana=" +:+ quoted "#s-CHAINE-1-fs" +:+ "/>") urs
    /\ contains
         ("<fs id=" +:+ quoted "s-CHAINE-1-fs" +:+ ">"
          +:+ "<f name=" +:+ quoted "REF" +:+ "><string>"
          +:+ "{escape(names[id(cluster)])}</string></f>"
          +:+ "<f name=" +:+ quoted "NB MAILLONS" +:+ "><string>"
          +:+ "1" +:+ "</string></f>" +:+ "</fs>") urs
    /\ contains
         ("<span id=" +:+ quoted "u-MENTION-2"
          +:+ " from=" +:+ quoted "text:w_export_1"
          +:+ " to=" +:+ quoted "text:w_export_1"
          +:+ " ana=" +:+ quoted "#u-MENTION-2-fs" +:+ "/>") urs.
Proof.
  destruct (chain_targets_cluster_mentions 0 Examples.two_chains true)
    as (_ & Hurs & _).
  assert ([] ∉ clusters Examples.two_chains) as Hnin
    by (apply (bool_decide_unpack _); by vm_compute).
  destruct (Hurs Hnin) as (urs & Hrun & Hall).
  destruct (Hall 1 [(1, 1)%Z] eq_refl) as (Hlink & Hfs & Hspan).
  exists urs. split; [exact Hrun|].
  split; [exact Hlink|]. split; [exact Hfs|].
  exact (proj2 (Hspan 0 1%Z 1%Z eq_refl)).
Defined.

(** C6, as amended.  The paragraph test is made once per sentence,
    after its closing tag: the text is the sentence elements in order,
    each followed by a paragraph break exactly when the index of the
    last token written so far is among the boundary indices and the
    number of breaks written so far is below the number of distinct
    boundary indices minus one.  No break stands inside a sentence
    element.  With no boundary data there is no break and the text
    holds exactly one opening [<p>]. *)
Theorem paragraph_breaks_after_sentences (doc : document) :
  _build_text doc =
    (if text_ok doc then
       Return ("<text><p>"
               +:+ cat (imap (fun s sent =>
                               s_elem doc s sent
                               +:+ (if break_after doc s then "</p><p>" else ""))
                             (sentences doc))
               +:+ "</p></text>")
     else Raise IndexError)
  /\ (forall s,
        break_after doc s = true <->
        exists ps : gset Z,
          pars_of doc = Some ps
          /\ (Z.of_nat (sent_offset doc (S s)) - 1)%Z ∈ ps
          /\ (Z.of_nat (breaks_before doc s) < Z.of_nat (size ps) - 1)%Z)
  /\ breaks_before doc 0 = 0
  /\ (forall s,
        breaks_before doc (S s)
        = breaks_before doc s + (if break_after doc s then 1 else 0))
  /\ (forall s sent, occurrences "<p>" (s_elem doc s sent) = 0)
  /\ (paragraphs doc = None ->
      (forall s, break_after doc s = false)
      /\ (forall out, _build_text doc = Return out ->
                      occurrences "<p>" out = 1)).
Proof.
  assert (paragraphs doc = None -> forall s, break_after doc s = false) as Hnone.
  { intros Hp s. unfold break_after, pars_of. by rewrite Hp. }
  split_and!.
  - exact (_build_text_spec doc).
  - intros s. unfold break_after, par_test.
    destruct (pars_of doc) as [ps|]; [|by split; [|intros (?&?&_)]].
    rewrite andb_true_iff, !bool_decide_eq_true. split.
    + intros [? ?]. by exists ps.
    + by intros (ps' & [= <-] & ? & ?).
  - done.
  - intros s. cbn [breaks_before]. unfold break_after.
    destruct (par_test _ _ _); lia.
  - intros s sent. apply occurrences_p_tag_free, p_tag_free_s_elem.
  - intros Hp. split; [by apply Hnone|].
    intros out. rewrite _build_text_spec.
    destruct (text_ok doc); [|done]. intros [= <-].
    apply occurrences_text_wrap.
    apply p_tag_free_imap. intros s sent.
    unfold par_mark. rewrite Hnone by done.
    rewrite str_app_nil_r. apply p_tag_free_s_elem.
Qed.

(** C6 on a document whose two paragraphs end with its two sentences
    (one break, after sentence 0), and on a document with no boundary
    data. *)
Lemma paragraph_breaks_after_sentences_witness :
  _build_text Examples.two_pars
  = Return ("<text><p>"
            +:+ s_elem Examples.two_pars 0 ["A"; "B"] +:+ "</p><p>"
            +:+ s_elem Examples.two_pars 1 ["C"]
            +:+ "</p></text>")
  /\ break_after Examples.two_pars 0 = true
  /\ break_after Examples.two_pars 1 = false
  /\ (forall out, _build_text Examples.d1 = Return out ->
                  occurrences "<p>" out = 1).
Proof.
  destruct (paragraph_breaks_after_sentences Examples.two_pars)
    as (Htext & _).
  destruct (paragraph_breaks_after_sentences Examples.d1)
    as (_ & _ & _ & _ & _ & Hnone).
  split; [rewrite Htext; by vm_compute|].
  split; [by vm_compute|]. split; [by vm_compute|].
  exact (proj2 (Hnone eq_refl)).
Defined.

(** C6, the claim as stated fails.  In a document whose first paragraph
    ends inside sentence 0 (boundary indices 0 and 2), the test of the
    claim holds once token 0 is written ([t] is 1, no break was written
    yet, and there are two paragraphs), yet no break follows that
    token: the only break of the text follows sentence 1. *)
Lemma paragraph_break_not_after_token :
  exists out,
    _build_text Examples.mid_mark = Return out
    /\ par_test (pars_of Examples.mid_mark) 1 0 = true
    /\ occurrences "</w></p><p>" out = 0
    /\ out = "<text><p>"
             +:+ s_open 0 +:+ w_elem 0 "A" None +:+ w_elem 1 "B" None +:+ "</s>"
             +:+ s_open 1 +:+ w_elem 2 "C" None +:+ "</s>"
             +:+ "</p><p>" +:+ "</p></text>".
Proof. eexists. split; [by vm_compute|]. by vm_compute. Qed.

(** C9.  [jsonlines2tei] returns exactly when both renderers return,
    and then it writes two files, the text and then the annotations,
    under the names [stem.xml] in the text directory and [stem-urs.xml]
    in the annotation directory (the name follows the directory, with a
    slash between them unless the directory is empty or ends with one),
    where the stem is the document key with every character outside
    [A-Za-z0-9_-] replaced by an underscore and then every run of
    underscores collapsed into one; it returns whenever every
    looked-up tag exists and no cluster is empty; and the key
    nw/docname:01 gives the stem nw_docname_01. *)
Theorem output_file_names (fuel : nat) (doc : document)
    (xml_dir urs_dir : string) (first : bool) :
  (forall files,
     jsonlines2tei fuel doc xml_dir urs_dir first = Return files
     <-> exists xml_text xml_urs,
           _build_text doc = Return xml_text
           /\ _build_urs fuel doc first = Return xml_urs
           /\ files =
               [ (path_join xml_dir (spec_stem (doc_key doc) +:+ ".xml"),
                  (_get_teis doc xml_text xml_urs).1);
                 (path_join urs_dir (spec_stem (doc_key doc) +:+ "-urs.xml"),
                  (_get_teis doc xml_text xml_urs).2) ])
  /\ (text_ok doc = true -> [] ∉ clusters doc ->
      exists files, jsonlines2tei fuel doc xml_dir urs_dir first = Return files)
  /\ (forall dir suffix,
        suffix = ".xml" \/ suffix = "-urs.xml" ->
        exists sep,
          (sep = "" \/ sep = "/")
          /\ path_join dir (spec_stem (doc_key doc) +:+ suffix)
             = dir +:+ sep +:+ spec_stem (doc_key doc) +:+ suffix)
  /\ (forall key, file_stem key = spec_stem key)
  /\ spec_stem "nw/docname:01" = "nw_docname_01".
Proof.
  split_and!.
  - intros files. unfold jsonlines2tei. rewrite file_stem_spec.
    destruct (_build_text doc) as [t| |]; cbn [bind];
      [|by split; [|intros (? & ? & ? & _)]..].
    destruct (_build_urs fuel doc first) as [u| |]; cbn [bind];
      [|by split; [|intros (? & ? & _ & ? & _)]..].
    destruct (_get_teis doc t u) as [a b] eqn:Ht. split.
    + intros [= <-]. exists t, u. by rewrite Ht.
    + intros (t' & u' & [= <-] & [= <-] & ->). by rewrite Ht.
  - intros Hok Hnin. unfold jsonlines2tei.
    rewrite _build_text_spec, _build_urs_spec, Hok.
    rewrite bool_decide_eq_false_2 by done. cbn [bind].
    destruct (_get_teis _ _ _). eauto.
  - intros dir suffix Hsuffix. rewrite <- file_stem_spec. unfold path_join.
    assert (String.prefix "/" (file_stem (doc_key doc) +:+ suffix) = false)
      as ->.
    { pose proof (re_sub_plus_all name_char _ false
                    (re_sub_class_all (doc_key doc))) as Hall.
      fold (file_stem (doc_key doc)) in Hall.
      destruct (file_stem (doc_key doc)) as [|c st].
      - rewrite str_app_nil_l. by destruct Hsuffix as [-> | ->].
      - rewrite str_app_cons. cbn [all_chars] in Hall.
        apply andb_prop in Hall as [Hc _]. cbn [String.prefix].
        destruct (ascii_dec "/" c) as [<-|]; done. }
    destruct (_ || _).
    + exists "". split; [by left|]. by rewrite str_app_nil_l.
    + exists "/". split; [by right | done].
  - apply file_stem_spec.
  - by vm_compute.
Qed.

(** C9 on the document of the scenario, with a directory named without
    a closing slash and one named with it. *)
Lemma output_file_names_witness :
  (exists text urs,
     jsonlines2tei 0 Examples.d1 "xml" "urs/" true
     = Return [("xml/d1.xml", text); ("urs/d1-urs.xml", urs)])
  /\ file_stem "nw/docname:01" = "nw_docname_01"
  /\ spec_stem "nw/docname:01" = "nw_docname_01".
Proof.
  destruct (output_file_names 0 Examples.d1 "xml" "urs/" true)
    as (Hfiles & Hrun & _ & Hstem & Hex).
  assert ([] ∉ clusters Examples.d1) as Hnin
    by (apply (bool_decide_unpack _); by vm_compute).
  destruct (Hrun eq_refl Hnin) as (files & Hret).
  destruct (proj1 (Hfiles files) Hret) as (text & urs & _ & _ & ->).
  split; [|split; [by rewrite Hstem | exact Hex]].
  exists (_get_teis Examples.d1 text urs).1, (_get_teis Examples.d1 text urs).2.
  rewrite Hret. by vm_compute.
Defined.

(** C10.  Every token and every tag goes into the text through
    [escape]: the content of [txm:form] is the escaped token and the
    content of [txm:ana] is the escaped tag.  [escape] turns the
    characters ampersand, less-than and greater-than into their entity
    references, character by character, so its result holds no raw
    less-than or greater-than and every ampersand in it starts one of
    the three entities. *)
Theorem token_text_escaped (doc : document) :
  _build_text doc =
    (if text_ok doc then
       Return ("<text><p>"
               +:+ cat (imap (fun s sent =>
                     (s_open s
                      +:+ cat (imap (fun t_local token =>
                            w_open (sent_offset doc s + t_local)
                            +:+ ("<txm:form>" +:+ Py.escape token +:+ "</txm:form>")
                            +:+ match tag_at doc s t_local with
                                | Some tag =>
                                    "<txm:ana resp=" +:+ quoted "#txm"
                                    +:+ " type=" +:+ quoted "#frpos" +:+ ">"
                                    +:+ Py.escape tag +:+ "</txm:ana>"
                                | None => ""
                                end
                            +:+ "</w>") sent)
                      +:+ "</s>")
                     +:+ par_mark doc s) (sentences doc))
               +:+ "</p></text>")
     else Raise IndexError)
  /\ (forall s, xml_safe (Py.escape s) = true)
  /\ Py.escape "" = ""
  /\ (forall c s, Py.escape (String c s) = escaped_char c +:+ Py.escape s)
  /\ escaped_char "&" = "&amp;"
  /\ escaped_char "<" = "&lt;"
  /\ escaped_char ">" = "&gt;".
Proof.
  split_and!; try done.
  - exact (_build_text_spec doc).
  - apply xml_safe_escape.
  - apply escape_cons.
Qed.

(** * Further properties of the program *)

(** ** When the conversion of a document fails *)

Section failure.

Lemma forallb_false_ex {A} (f : A -> bool) (l : list A) :
  forallb f l = false -> exists x, In x l /\ f x = false.
Proof.
  induction l as [|x l IH]; [done|]. cbn [forallb].
  destruct (f x) eqn:Hx; simpl.
  - intros (y & ? & ?)%IH. exists y. auto.
  - intros _. exists x. auto.
Qed.

Lemma sents_ok_spec doc sents : forall s0,
  sents_ok doc s0 sents = true <->
  forall i sent t_local,
    sents !! i = Some sent -> t_local < length sent ->
    tag_ok doc (s0 + i) t_local = true.
Proof.
  induction sents as [|sent sents IH]; intros s0.
  - split; [|done]. intros _ i sent tl Hi. by rewrite lookup_nil in Hi.
  - cbn [sents_ok]. rewrite andb_true_iff, IH, forallb_forall. split.
    + intros [Hhead Htail] [|i] sent' tl Hi Htl; simplify_eq/=.
      * rewrite Nat.add_0_r. apply Hhead, in_seq. lia.
      * rewrite Nat.add_succ_r. by eapply (Htail i).
    + intros Hall. split.
      * intros tl [_ Htl]%in_seq.
        specialize (Hall 0 sent tl eq_refl). rewrite Nat.add_0_r in Hall.
        apply Hall. simpl in Htl. lia.
      * intros i sent' tl Hi Htl.
        specialize (Hall (S i) sent' tl Hi Htl).
        by rewrite Nat.add_succ_r in Hall.
Qed.

Lemma sents_ok_false doc sents : forall s0,
  sents_ok doc s0 sents = false ->
  exists i sent t_local,
    sents !! i = Some sent /\ t_local < length sent
    /\ tag_ok doc (s0 + i) t_local = false.
Proof.
  induction sents as [|sent sents IH]; intros s0; [done|].
  cbn [sents_ok]. intros [Hh|Ht]%andb_false_iff.
  - apply forallb_false_ex in Hh as (tl & [_ Htl]%in_seq & Hbad).
    exists 0, sent, tl. rewrite Nat.add_0_r.
    split_and!; [done | simpl in Htl; lia | done].
  - apply IH in Ht as (i & sent' & tl & ? & ? & Hbad).
    exists (S i), sent', tl. by rewrite Nat.add_succ_r.
Qed.

Lemma tag_ok_false doc s t_local :
  tag_ok doc s t_local = false <->
  exists tags, pos doc = Some tags /\ tags !! s ≫= (.!! t_local) = None.
Proof.
  unfold tag_ok, tag_at. destruct (pos doc) as [tags|].
  - rewrite bool_decide_eq_false. split.
    + intros Hn. exists tags. split; [done|].
      destruct (tags !! s ≫= _); [|done]. by destruct Hn.
    + intros (? & [= <-] & ->). by intros [? ?].
  - split; [done|]. by intros (? & ? & _).
Qed.

Lemma text_ok_false doc :
  text_ok doc = false <->
  exists tags s sent t_local,
    pos doc = Some tags /\ sentences doc !! s = Some sent
    /\ t_local < length sent /\ tags !! s ≫= (.!! t_local) = None.
Proof.
  unfold text_ok. split.
  - intros (s & sent & tl & Hs & Htl & Hbad)%sents_ok_false.
    apply tag_ok_false in Hbad as (tags & ? & ?).
    by exists tags, s, sent, tl.
  - intros (tags & s & sent & tl & Hpos & Hs & Htl & Hnone).
    apply not_true_is_false. intros Hok.
    pose proof (proj1 (sents_ok_spec doc _ 0) Hok s sent tl Hs Htl) as Hgood.
    assert (tag_ok doc (0 + s) tl = false) as Hbad
      by (apply tag_ok_false; eauto).
    congruence.
Qed.

End failure.

(** X1.  [_build_text] raises [IndexError] exactly when tags are given
    and some token has no tag at its place ([doc["pos"][s][t_local]]
    does not exist); in every other case it returns the text.  Tags in
    surplus (longer rows, more rows) are not looked up, and neither is
    the row of a sentence with no token. *)
Theorem build_text_raises_iff_tag_missing (doc : document) :
  (_build_text doc = Raise IndexError <->
     exists tags s sent t_local,
       pos doc = Some tags /\ sentences doc !! s = Some sent
       /\ t_local < length sent /\ tags !! s ≫= (.!! t_local) = None)
  /\ ((exists out, _build_text doc = Return out) <->
      forall tags s sent t_local,
        pos doc = Some tags -> sentences doc !! s = Some sent ->
        t_local < length sent -> is_Some (tags !! s ≫= (.!! t_local))).
Proof.
  rewrite _build_text_spec, <- text_ok_false.
  destruct (text_ok doc) eqn:Hok.
  - split; [done|]. split; [|by eauto].
    intros _ tags s sent tl Hpos Hs Htl.
    destruct (tags !! s ≫= _) eqn:Hl; [by eauto|].
    assert (text_ok doc = false) by (apply text_ok_false; by eauto 10).
    congruence.
  - split; [done|]. split; [by intros [? ?]|].
    intros Hall.
    apply text_ok_false in Hok as (tags & s & sent & tl & ? & ? & ? & Hn).
    destruct (Hall tags s sent tl) as [? Hsome]; [done..|]. congruence.
Qed.

(** X1 on a document with surplus tags and an empty sentence (the text
    is returned) and on a document with a tag missing. *)
Lemma build_text_raises_iff_tag_missing_witness :
  (exists out, _build_text MoreExamples.surplus_tags = Return out)
  /\ _build_text MoreExamples.missing_tag = Raise IndexError.
Proof.
  destruct (build_text_raises_iff_tag_missing MoreExamples.missing_tag)
    as [[_ Hraise] _].
  split; [eexists; by vm_compute|].
  apply Hraise. exists [["DET"]; ["V"]], 1, ["B"; "C"], 1.
  split_and!; [done | done | simpl; lia | done].
Defined.


(** ** Referent Namer *)

Section namer_more.

Lemma candidates_first_closed tokens cls : forall c d,
  candidates (first_text tokens) c cls = Return d ->
  d = imap (fun i cl => (c + i, first_mention_name tokens cl)) cls.
Proof.
  induction cls as [|cl cls IH]; intros c d; cbn [candidates].
  - by intros [= <-].
  - destruct cl as [|x cl]; [done|]. cbn.
    destruct (candidates _ (S c) cls) as [d'| |] eqn:Hd; cbn; try done.
    intros [= <-]. rewrite Nat.add_0_r. f_equal.
    rewrite (IH _ _ Hd). apply imap_ext. intros i y _. cbn.
    by rewrite Nat.add_succ_r.
Qed.

Lemma insert_desc_perm {A} (key : A -> nat) x l :
  Py.insert_desc key x l ≡ₚ x :: l.
Proof.
  induction l as [|y l IH]; [done|]. cbn [Py.insert_desc].
  destruct (key x <? key y); [|done].
  rewrite IH. apply Permutation_swap.
Qed.

Lemma insert_desc_sorted {A} (key : A -> nat) x l :
  Sorted (fun a b => key b <= key a) l ->
  Sorted (fun a b => key b <= key a) (Py.insert_desc key x l).
Proof.
  induction 1 as [|y l Hs IH Hhd]; cbn [Py.insert_desc];
    [by repeat constructor|].
  destruct (Nat.ltb_spec (key x) (key y)) as [Hlt|Hge].
  - constructor; [done|].
    destruct Hhd as [|z l Hyz]; cbn [Py.insert_desc]; [constructor; lia|].
    destruct (key x <? key z); constructor; [done | lia].
  - constructor; [by constructor|]. by constructor.
Qed.

Lemma insert_desc_filter {A} (key : A -> nat) (k : nat) x l :
  filter (fun a => key a = k) (Py.insert_desc key x l)
  = filter (fun a => key a = k) (x :: l).
Proof.
  induction l as [|y l IH]; [done|]. cbn [Py.insert_desc].
  destruct (Nat.ltb_spec (key x) (key y)) as [Hlt|Hge]; [|done].
  rewrite filter_cons, IH, !filter_cons.
  repeat case_decide; try done; lia.
Qed.

End namer_more.

(** X3.  In both modes, when [_get_refnames] returns, the dictionary
    holds one entry per cluster, in the order of the clusters and keyed
    by their position, and the name of a cluster is the space-joined
    text of the token slice of its first mention; mentions after the
    first are not read and no name is changed by the loop over the
    names. *)
Theorem refnames_are_first_mention_names (fuel : nat) (doc : document)
    (first : bool) (d : refnames) :
  _get_refnames fuel doc first = Return d ->
  d = imap (fun c cl => (c, first_mention_name (tokens_of doc) cl))
           (clusters doc).
Proof.
  rewrite _get_refnames_candidates. intros Hd.
  assert (candidates (first_text (tokens_of doc)) 0 (clusters doc) = Return d)
    as Hd'.
  { destruct first; [done|]. rewrite <- Hd.
    symmetry. apply candidates_ext, get_longest_first. }
  by apply candidates_first_closed in Hd'.
Qed.

(** X3 in LONGEST mode on a cluster whose second mention is the longer
    one. *)
Lemma refnames_are_first_mention_names_witness :
  _get_refnames 0 Examples.long_second false = Return [(0, "A")]
  /\ [(0, "A")]
     = imap (fun c cl => (c, first_mention_name ["A"; "B"; "C"] cl))
            [[(0, 0); (1, 2)]%Z].
Proof.
  assert (_get_refnames 0 Examples.long_second false = Return [(0, "A")])
    as Hrun by (by vm_compute).
  split; [exact Hrun|].
  exact (refnames_are_first_mention_names 0 Examples.long_second false _ Hrun).
Defined.

(** X4.  The renaming loop [while name not in used] can only stop on a
    name that is in [used], and stops at once, with the name unchanged,
    when it starts on such a name; so [_get_refnames] gives the same
    outcome for every amount of fuel, none included. *)
Theorem rename_loop_stops_on_used_name (fuel : nat) (used : gset string)
    (name : string) (counter : nat) :
  (forall name', rename_loop fuel used name counter = Return name' ->
                 name' ∈ used)
  /\ (name ∈ used -> rename_loop fuel used name counter = Return name)
  /\ (forall doc first,
        _get_refnames fuel doc first = _get_refnames 0 doc first).
Proof.
  split_and!.
  - revert name counter. induction fuel as [|fuel IH]; intros name counter name';
      cbn [rename_loop]; case_bool_decide as Hin; try done.
    + intros [= <-]. by destruct (decide (name ∈ used)).
    + apply IH.
    + intros [= <-]. by destruct (decide (name ∈ used)).
  - apply rename_loop_used.
  - intros doc first. by rewrite !_get_refnames_candidates.
Qed.

(** X4 on a loop that does iterate: from "A" with the names "A1" and
    "B" in use, one round reaches "A1", which is in use. *)
Lemma rename_loop_stops_on_used_name_witness :
  rename_loop 5 {["A1"; "B"]} "A" 1 = Return "A1"
  /\ "A1" ∈ ({["A1"; "B"]} : gset string)
  /\ rename_loop 0 {["A1"; "B"]} "B" 1 = Return "B".
Proof.
  destruct (rename_loop_stops_on_used_name 5 {["A1"; "B"]} "A" 1)
    as (Hstop & _ & _).
  destruct (rename_loop_stops_on_used_name 0 {["A1"; "B"]} "B" 1)
    as (_ & Hkeep & _).
  assert (rename_loop 5 {["A1"; "B"]} "A" 1 = Return "A1") as Hrun
    by (by vm_compute).
  split; [exact Hrun|]. split; [exact (Hstop _ Hrun)|].
  apply Hkeep. apply (bool_decide_unpack _). by vm_compute.
Defined.

(** X5.  The sort of [get_longest], [sorted(cluster, key=..., reverse=True)],
    is a stable sort by descending key: its result is a permutation of
    the cluster, its keys never increase, and the elements of any one
    key keep the order they had.  (With the key [len] of the source,
    the same for every mention, this leaves the cluster as it is.) *)
Theorem sorted_rev_stable_descending {A : Type} (key : A -> nat)
    (l : list A) :
  Py.sorted_rev key l ≡ₚ l
  /\ Sorted (fun a b => key b <= key a) (Py.sorted_rev key l)
  /\ (forall k, filter (fun a => key a = k) (Py.sorted_rev key l)
                = filter (fun a => key a = k) l).
Proof.
  unfold Py.sorted_rev. induction l as [|x l (Hp & Hs & Hf)]; [by repeat constructor|].
  cbn [foldr]. split_and!.
  - by rewrite insert_desc_perm, Hp.
  - by apply insert_desc_sorted.
  - intros k. by rewrite insert_desc_filter, !filter_cons, Hf.
Qed.

Section slices.



End slices.



(** ** What each renderer reads *)

Section reads.

Lemma token_step_reads d1 d2 s st t_local token : pos d1 = pos d2 ->
  token_step d1 s st t_local token = token_step d2 s st t_local token.
Proof. intros Hpos. unfold token_step. by rewrite Hpos. Qed.

Lemma token_loop_reads d1 d2 s sent : pos d1 = pos d2 ->
  forall t_local st,
    token_loop d1 s t_local sent st = token_loop d2 s t_local sent st.
Proof.
  intros Hpos. induction sent as [|token sent IH]; intros tl st; [done|].
  cbn [token_loop]. rewrite (token_step_reads d1 d2) by done.
  destruct (token_step d2 s st tl token) as [st'| |]; cbn [bind];
    [apply IH|done..].
Qed.

Lemma sentence_step_reads d1 d2 pars st s sent : pos d1 = pos d2 ->
  sentence_step d1 pars st s sent = sentence_step d2 pars st s sent.
Proof.
  intros Hpos. unfold sentence_step.
  by rewrite (token_loop_reads d1 d2).
Qed.

Lemma sentence_loop_reads d1 d2 pars sents : pos d1 = pos d2 ->
  forall s st,
    sentence_loop d1 pars s sents st = sentence_loop d2 pars s sents st.
Proof.
  intros Hpos. induction sents as [|sent sents IH]; intros s st; [done|].
  cbn [sentence_loop]. rewrite (sentence_step_reads d1 d2) by done.
  destruct (sentence_step d2 pars st s sent) as [st'| |]; cbn [bind];
    [apply IH|done..].
Qed.

End reads.

(** X7.  The text depends on the sentences, the tags and the paragraph
    marks only: two documents that agree on these three keys get the
    same text (or fail alike), whatever their keys and clusters. *)
Theorem build_text_reads_three_keys (d1 d2 : document) :
  sentences d1 = sentences d2 -> pos d1 = pos d2 ->
  paragraphs d1 = paragraphs d2 ->
  _build_text d1 = _build_text d2.
Proof.
  intros Hs Hpos Hpar. unfold _build_text, pars_of.
  by rewrite Hs, Hpar, (sentence_loop_reads d1 d2).
Qed.

(** X7 on the scenario document and the same text under another key
    and with other chains. *)
Lemma build_text_reads_three_keys_witness :
  _build_text Examples.d1 = _build_text MoreExamples.d1_other_chains.
Proof.
  exact (build_text_reads_three_keys Examples.d1 MoreExamples.d1_other_chains
           eq_refl eq_refl eq_refl).
Defined.

(** X8.  The annotations depend on the clusters only: two documents
    with the same clusters get the same stand-off element (or fail
    alike), whatever their sentences, the mode and the fuel.  In
    particular the bounds of a mention are never compared with the
    number of tokens. *)
Theorem build_urs_reads_clusters_only (fuel1 fuel2 : nat) (d1 d2 : document)
    (first1 first2 : bool) :
  clusters d1 = clusters d2 ->
  _build_urs fuel1 d1 first1 = _build_urs fuel2 d2 first2.
Proof. intros Hc. by rewrite !_build_urs_spec, Hc. Qed.

(** X8 on the scenario document and a document of one token with the
    same chains, whose mention [2, 2] lies outside the text. *)
Lemma build_urs_reads_clusters_only_witness :
  _build_urs 0 Examples.d1 true = _build_urs 3 MoreExamples.d1_other_text false.
Proof.
  exact (build_urs_reads_clusters_only 0 3 Examples.d1
           MoreExamples.d1_other_text true false eq_refl).
Defined.

(** ** Identifiers *)

Section identifiers.

Lemma sent_offset_lookup_S doc s sent :
  sentences doc !! s = Some sent ->
  sent_offset doc (S s) = sent_offset doc s + length sent.
Proof.
  intros Hs. unfold sent_offset.
  rewrite (take_S_r _ _ _ Hs), sum_list_with_app. simpl. lia.
Qed.

Lemma sent_offset_mono doc s s' :
  s <= s' -> sent_offset doc s <= sent_offset doc s'.
Proof.
  induction 1 as [|s' _ IH]; [done|]. etrans; [exact IH|].
  destruct (sentences doc !! s') as [sent|] eqn:Hs.
  - rewrite (sent_offset_lookup_S _ _ _ Hs). lia.
  - unfold sent_offset. apply lookup_ge_None in Hs.
    by rewrite !take_ge by lia.
Qed.

End identifiers.

(** ** Counting elements in the rendered strings *)

Section counting.

Lemma prefix_app_r p : forall t u,
  String.prefix p t = true -> String.prefix p (t +:+ u) = true.
Proof.
  induction p as [|a p IH]; intros t u; [intros _; apply prefix_nil|].
  destruct t as [|b t]; [done|]. rewrite str_app_cons. cbn [String.prefix].
  destruct (ascii_dec a b); [apply IH | done].
Qed.

Lemma prefix_app_inv p : forall t u,
  String.prefix p (t +:+ u) = true ->
  String.prefix p t = true \/ String.prefix t p = true.
Proof.
  induction p as [|a p IH]; intros t u; [left; apply prefix_nil|].
  destruct t as [|b t]; [right; done|]. rewrite str_app_cons.
  cbn [String.prefix].
  destruct (ascii_dec a b) as [->|]; [|done].
  destruct (ascii_dec b b); [|done]. apply IH.
Qed.

Lemma prefix_app_l t : forall u p,
  String.prefix (t +:+ u) p = true -> String.prefix t p = true.
Proof.
  induction t as [|a t IH]; intros u p; [intros _; apply prefix_nil|].
  rewrite str_app_cons. destruct p as [|b p]; [done|]. cbn [String.prefix].
  destruct (ascii_dec a b); [apply IH | done].
Qed.

Variable pat : string.
Hypothesis pat_lt : String.prefix "<" pat = true.

Lemma pat_not_nil : String.prefix pat "" = false.
Proof using pat_lt. by destruct pat. Qed.

Lemma occurrences_app s1 s2 :
  ends_clean pat s1 = true ->
  occurrences pat (s1 +:+ s2) = occurrences pat s1 + occurrences pat s2.
Proof using pat_lt.
  induction s1 as [|c s1 IH]; intros Hclean.
  - rewrite str_app_nil_l. cbn [occurrences]. by rewrite pat_not_nil.
  - cbn [ends_clean] in Hclean. apply andb_prop in Hclean as [Hc Hclean].
    rewrite str_app_cons. cbn [occurrences]. rewrite (IH Hclean).
    rewrite <- str_app_cons.
    assert (String.prefix pat (String c s1 +:+ s2)
            = String.prefix pat (String c s1)) as ->; [|lia].
    destruct (String.prefix pat (String c s1)) eqn:Hfull.
    + by apply prefix_app_r.
    + rewrite orb_false_r in Hc. apply negb_true_iff in Hc.
      destruct (String.prefix pat (String c s1 +:+ s2)) eqn:Hp; [|done].
      apply prefix_app_inv in Hp as [?|?]; congruence.
Qed.

Lemma ends_clean_app s1 s2 :
  ends_clean pat s1 = true -> ends_clean pat s2 = true ->
  ends_clean pat (s1 +:+ s2) = true.
Proof.
  intros H1 H2. induction s1 as [|c s1 IH]; [done|].
  cbn [ends_clean] in H1. apply andb_prop in H1 as [Hc H1].
  rewrite str_app_cons. cbn [ends_clean]. rewrite (IH H1), andb_true_r.
  rewrite <- str_app_cons.
  destruct (String.prefix pat (String c s1)) eqn:Hfull.
  - by rewrite prefix_app_r, orb_true_r.
  - rewrite orb_false_r in Hc. apply negb_true_iff in Hc.
    destruct (String.prefix (String c s1 +:+ s2) pat) eqn:Hp; [|done].
    apply prefix_app_l in Hp. congruence.
Qed.

Lemma ends_clean_lt_free s : lt_free s = true -> ends_clean pat s = true.
Proof using pat_lt.
  induction s as [|c s IH]; [done|]. cbn [lt_free ends_clean].
  intros [Hc Hs]%andb_prop. rewrite (IH Hs), andb_true_r.
  destruct pat as [|a p]; [done|]. cbn [String.prefix] in *.
  destruct (ascii_dec "<" a) as [<-|]; [|done].
  destruct (ascii_dec c "<") as [->|]; [done|]. done.
Qed.

Lemma occurrences_lt_free s : lt_free s = true -> occurrences pat s = 0.
Proof using pat_lt.
  induction s as [|c s IH]; cbn [lt_free occurrences].
  - by rewrite pat_not_nil.
  - intros [Hc Hs]%andb_prop. rewrite (IH Hs).
    destruct pat as [|a p]; [done|]. cbn [String.prefix] in *.
    destruct (ascii_dec "<" a) as [<-|]; [|done].
    destruct (ascii_dec "<" c) as [<-|]; [done|]. done.
Qed.

Lemma ends_clean_cat (l : list string) :
  Forall (fun s => ends_clean pat s = true) l -> ends_clean pat (cat l) = true.
Proof.
  induction 1 as [|s l Hs _ IH]; [done|].
  rewrite cat_cons. by apply ends_clean_app.
Qed.

Lemma ends_clean_imap {A} (f : nat -> A -> string) (l : list A) :
  (forall i x, ends_clean pat (f i x) = true) ->
  ends_clean pat (cat (imap f l)) = true.
Proof.
  intros Hf. apply ends_clean_cat, Forall_forall.
  intros s [i [x [-> _]]]%elem_of_lookup_imap. apply Hf.
Qed.

(** The occurrences in a concatenation of clean pieces add up. *)
Lemma occurrences_imap {A} (f : nat -> A -> string) (g : nat -> A -> nat)
    (l : list A) :
  (forall i x, ends_clean pat (f i x) = true) ->
  (forall i x, occurrences pat (f i x) = g i x) ->
  occurrences pat (cat (imap f l)) = sum_list (imap g l).
Proof using pat_lt.
  revert f g. induction l as [|x l IH]; intros f g Hclean Hocc.
  - change (occurrences pat "" = 0). cbn [occurrences].
    by rewrite pat_not_nil.
  - rewrite !imap_cons, cat_cons. cbn [sum_list_with].
    rewrite occurrences_app by done. rewrite Hocc.
    unfold id at 1. f_equal. apply IH; intros; [apply Hclean | apply Hocc].
Qed.

Lemma occurrences_app_eq s1 s2 m n k :
  ends_clean pat s1 = true ->
  occurrences pat s1 = m -> occurrences pat s2 = n -> k = m + n ->
  occurrences pat (s1 +:+ s2) = k.
Proof using pat_lt. intros ? <- <- ->. by apply occurrences_app. Qed.

End counting.

Section pieces.

Lemma lt_free_escape s : lt_free (Py.escape s) = true.
Proof. apply xml_safe_lt_free, xml_safe_escape. Qed.

Lemma lt_free_pretty_N (x : N) : lt_free (pretty x) = true.
Proof.
  unfold pretty, pretty_N. case_decide; [done|].
  by apply lt_free_pretty_N_go.
Qed.

Lemma lt_free_str_int z : lt_free (Py.str_int z) = true.
Proof.
  unfold Py.str_int. destruct z as [|p|p]; [done| |].
  - apply (lt_free_pretty_N (Npos p)).
  - apply (lt_free_app "-"); [done|]. apply (lt_free_pretty_N (Npos p)).
Qed.

Lemma lt_free_join sep (l : list string) :
  lt_free sep = true -> Forall (fun s => lt_free s = true) l ->
  lt_free (Py.join sep l) = true.
Proof.
  intros Hsep. unfold Py.join.
  induction 1 as [|s l Hs Hl IH]; [done|]. cbn [String.concat].
  destruct l as [|s' l]; [done|].
  change (lt_free (s +:+ sep +:+ String.concat sep (s' :: l)) = true).
  by repeat apply lt_free_app.
Qed.

Lemma lt_free_chain_target offset cl :
  lt_free (chain_target offset cl) = true.
Proof.
  unfold chain_target. apply lt_free_join; [done|].
  apply Forall_fmap, Forall_forall. intros m _. cbn. unfold mention_id.
  repeat apply lt_free_app; try done. apply lt_free_str_nat.
Qed.

End pieces.

(** The pieces of a rendered string: literals, numbers, escaped texts
    and link targets. *)
Ltac lt_free_pieces :=
  repeat apply lt_free_app;
  first [ apply lt_free_str_nat | apply lt_free_str_int | apply lt_free_escape
        | apply lt_free_chain_target | reflexivity ].

Ltac clean_pieces :=
  repeat apply ends_clean_app;
  first [ apply ends_clean_lt_free; [reflexivity | lt_free_pieces]
        | reflexivity ].

Ltac occ_count :=
  lazymatch goal with
  | |- occurrences _ (_ +:+ _) = _ =>
      eapply occurrences_app_eq;
        [ reflexivity | clean_pieces | occ_count | occ_count | reflexivity ]
  | |- _ =>
      first [ apply occurrences_lt_free; [reflexivity | lt_free_pieces]
            | vm_compute; reflexivity ]
  end.

Section text_counts.

Lemma w_elem_w t token tag :
  ends_clean "<w " (w_elem t token tag) = true
  /\ occurrences "<w " (w_elem t token tag) = 1.
Proof.
  unfold w_elem, w_open, word_id, txm_form, quoted.
  destruct tag as [tag|]; cbn [from_option]; unfold txm_ana, quoted;
    (split; [clean_pieces | occ_count]).
Qed.

Lemma w_elem_s t token tag :
  ends_clean "<s " (w_elem t token tag) = true
  /\ occurrences "<s " (w_elem t token tag) = 0.
Proof.
  unfold w_elem, w_open, word_id, txm_form, quoted.
  destruct tag as [tag|]; cbn [from_option]; unfold txm_ana, quoted;
    (split; [clean_pieces | occ_count]).
Qed.

Lemma w_elem_p t token tag :
  ends_clean "<p>" (w_elem t token tag) = true
  /\ occurrences "<p>" (w_elem t token tag) = 0.
Proof.
  unfold w_elem, w_open, word_id, txm_form, quoted.
  destruct tag as [tag|]; cbn [from_option]; unfold txm_ana, quoted;
    (split; [clean_pieces | occ_count]).
Qed.


Lemma s_open_s s :
  ends_clean "<s " (s_open s) = true /\ occurrences "<s " (s_open s) = 1.
Proof. unfold s_open, quoted. split; [clean_pieces | occ_count]. Qed.

Lemma s_open_w s :
  ends_clean "<w " (s_open s) = true /\ occurrences "<w " (s_open s) = 0.
Proof. unfold s_open, quoted. split; [clean_pieces | occ_count]. Qed.

Lemma s_open_p s :
  ends_clean "<p>" (s_open s) = true /\ occurrences "<p>" (s_open s) = 0.
Proof. unfold s_open, quoted. split; [clean_pieces | occ_count]. Qed.

Lemma sum_list_imap_const {A} (k : nat) (l : list A) :
  sum_list (imap (fun _ _ => k) l) = k * length l.
Proof.
  induction l as [|x l IH]; [cbn; lia|].
  rewrite imap_cons. cbn [sum_list_with length]. unfold id at 1.
  assert (imap ((fun _ (_ : A) => k) ∘ S) l = imap (fun _ _ => k) l) as ->
    by (by apply imap_ext).
  rewrite IH. lia.
Qed.

Lemma sum_list_imap_length {A} (l : list (list A)) :
  sum_list (imap (fun _ x => length x) l) = length (concat l).
Proof.
  induction l as [|x l IH]; [done|].
  rewrite imap_cons. cbn [sum_list_with concat]. unfold id at 1.
  assert (imap ((fun _ (x : list A) => length x) ∘ S) l
          = imap (fun _ x => length x) l) as -> by (by apply imap_ext).
  rewrite IH, length_app. lia.
Qed.

Section one_pattern.

Variable pat : string.
Variables k_text k_w k_s k_p : nat.
Hypothesis pat_lt : String.prefix "<" pat = true.
Hypothesis text_open :
  ends_clean pat "<text><p>" = true
  /\ occurrences pat "<text><p>" = k_text.
Hypothesis text_close : occurrences pat "</p></text>" = 0.
Hypothesis w_count : forall t token tag,
  ends_clean pat (w_elem t token tag) = true
  /\ occurrences pat (w_elem t token tag) = k_w.
Hypothesis s_count : forall s,
  ends_clean pat (s_open s) = true /\ occurrences pat (s_open s) = k_s.
Hypothesis s_close :
  ends_clean pat "</s>" = true /\ occurrences pat "</s>" = 0.
Hypothesis p_count :
  ends_clean pat "</p><p>" = true /\ occurrences pat "</p><p>" = k_p.

Lemma s_elem_count doc s sent :
  ends_clean pat (s_elem doc s sent) = true
  /\ occurrences pat (s_elem doc s sent) = k_s + k_w * length sent.
Proof.
  unfold s_elem. split.
  - apply ends_clean_app; [apply s_count|].
    apply ends_clean_app; [|apply s_close].
    apply ends_clean_imap. intros. apply w_count.
  - rewrite occurrences_app by (done || apply s_count).
    rewrite occurrences_app
      by (done || (apply ends_clean_imap; intros; apply w_count)).
    rewrite (proj2 (s_count s)), (proj2 s_close).
    rewrite (occurrences_imap pat pat_lt _ (fun _ _ => k_w));
      [|intros; apply w_count..].
    rewrite sum_list_imap_const. lia.
Qed.

Lemma par_mark_count doc s :
  ends_clean pat (par_mark doc s) = true
  /\ occurrences pat (par_mark doc s)
     = if break_after doc s then k_p else 0.
Proof.
  unfold par_mark. destruct (break_after doc s); [apply p_count|].
  split; [done|]. cbn [occurrences]. by rewrite pat_not_nil.
Qed.

Lemma text_count doc :
  occurrences pat
    ("<text><p>"
     +:+ cat (imap (fun s sent => s_elem doc s sent +:+ par_mark doc s)
                   (sentences doc))
     +:+ "</p></text>")
  = k_text
    + sum_list (imap (fun s sent =>
                        k_s + k_w * length sent
                        + if break_after doc s then k_p else 0)
                     (sentences doc)).
Proof.
  assert (forall s sent,
            ends_clean pat (s_elem doc s sent +:+ par_mark doc s) = true)
    as Hclean.
  { intros. apply ends_clean_app;
      [apply s_elem_count | apply par_mark_count]. }
  rewrite occurrences_app by (done || apply text_open).
  rewrite occurrences_app by (done || by apply ends_clean_imap).
  rewrite (proj2 text_open), text_close, Nat.add_0_r. f_equal.
  apply occurrences_imap; [done..|]. intros s sent.
  rewrite occurrences_app by (done || apply s_elem_count).
  by rewrite (proj2 (s_elem_count doc s sent)),
    (proj2 (par_mark_count doc s)).
Qed.

End one_pattern.

Lemma sum_breaks doc rest : forall pre,
  sentences doc = pre ++ rest ->
  breaks_before doc (length pre)
  + sum_list (imap (fun i (_ : list string) =>
                      if break_after doc (length pre + i) then 1 else 0) rest)
  = breaks_before doc (length (sentences doc)).
Proof.
  induction rest as [|sent rest IH]; intros pre Hs.
  - rewrite Hs, app_nil_r. cbn. lia.
  - rewrite imap_cons. cbn [sum_list_with]. unfold id at 1.
    rewrite Nat.add_0_r.
    specialize (IH (pre ++ [sent])). rewrite <- (assoc_L (++)) in IH.
    specialize (IH Hs). rewrite length_app in IH. cbn [length] in IH.
    rewrite <- IH. rewrite Nat.add_1_r. cbn [breaks_before].
    fold (break_after doc (length pre)).
    assert (imap ((fun i (_ : list string) =>
              if break_after doc (length pre + i) then 1 else 0) ∘ S) rest
            = imap (fun i (_ : list string) =>
                      if break_after doc (S (length pre) + i) then 1 else 0)
                   rest) as ->.
    { apply imap_ext. intros i x _. cbn. by rewrite Nat.add_succ_r. }
    destruct (break_after doc (length pre)); lia.
Qed.

Lemma breaks_before_le doc s :
  breaks_before doc s <= s
  /\ breaks_before doc s
     <= match pars_of doc with Some ps => size ps - 1 | None => 0 end.
Proof.
  induction s as [|s [IH1 IH2]]; [cbn; lia|]. cbn [breaks_before].
  unfold par_test. destruct (pars_of doc) as [ps|]; [|lia].
  destruct (bool_decide _ && bool_decide _) eqn:Htest; [|lia].
  apply andb_prop in Htest as [_ Hp%bool_decide_eq_true]. lia.
Qed.

End text_counts.

(** X11.  The text holds exactly one [w] element per token of the
    document and one [s] element per sentence, whatever the tokens and
    tags are, and one opening [p] tag more than paragraph breaks were
    written. *)
Theorem text_element_counts (doc : document) (out : string) :
  _build_text doc = Return out ->
  occurrences "<w " out = length (tokens_of doc)
  /\ occurrences "<s " out = length (sentences doc)
  /\ occurrences "<p>" out = S (breaks_before doc (length (sentences doc))).
Proof.
  rewrite _build_text_spec. destruct (text_ok doc); [|done]. intros [= <-].
  split_and!.
  - rewrite (text_count "<w " 0 1 0 0);
      [| done | done | done | apply w_elem_w | apply s_open_w | done | done].
    assert (imap (fun s sent => 0 + 1 * length sent
                                + (if break_after doc s then 0 else 0))
                 (sentences doc)
            = imap (fun _ sent => length sent) (sentences doc)) as ->.
    { apply imap_ext. intros s sent _. cbn. destruct (break_after doc s); lia. }
    by rewrite sum_list_imap_length.
  - rewrite (text_count "<s " 0 0 1 0);
      [| done | done | done | apply w_elem_s | apply s_open_s | done | done].
    assert (imap (fun s (sent : list string) => 1 + 0 * length sent
                                + (if break_after doc s then 0 else 0))
                 (sentences doc)
            = imap (fun _ _ => 1) (sentences doc)) as ->.
    { apply imap_ext. intros s sent _. cbn. destruct (break_after doc s); lia. }
    rewrite sum_list_imap_const. lia.
  - rewrite (text_count "<p>" 1 0 0 1);
      [| done | done | done | apply w_elem_p | apply s_open_p | done | done].
    assert (imap (fun s (sent : list string) => 0 + 0 * length sent
                                + (if break_after doc s then 1 else 0))
                 (sentences doc)
            = imap (fun i _ => if break_after doc (length (@nil (list string)) + i)
                               then 1 else 0)
                   (sentences doc)) as ->.
    { apply imap_ext. intros s sent _. cbn. destruct (break_after doc s); lia. }
    pose proof (sum_breaks doc (sentences doc) [] eq_refl) as Hsum.
    cbn [length breaks_before] in Hsum. cbn [length]. lia.
Qed.

(** X11 on a document of three tokens in two sentences and two
    paragraphs. *)
Lemma text_element_counts_witness :
  exists out,
    _build_text Examples.two_pars = Return out
    /\ occurrences "<w " out = 3
    /\ occurrences "<s " out = 2
    /\ occurrences "<p>" out = 2.
Proof.
  assert (exists out, _build_text Examples.two_pars = Return out) as [out Hout]
    by (eexists; by vm_compute).
  exists out. split; [exact Hout|].
  exact (text_element_counts Examples.two_pars out Hout).
Defined.

(** X12.  The paragraph counter never passes the number of distinct
    boundary indices minus one, nor the number of sentences read: the
    text has at least one paragraph, at most as many as there are
    boundary indices (one when there is none), and a break only follows
    a sentence. *)
Theorem paragraph_count_bounded (doc : document) (out : string) :
  _build_text doc = Return out ->
  1 <= occurrences "<p>" out
  /\ occurrences "<p>" out <= 1 + length (sentences doc)
  /\ occurrences "<p>" out
     <= match pars_of doc with Some ps => max 1 (size ps) | None => 1 end.
Proof.
  rewrite _build_text_spec. destruct (text_ok doc); [|done]. intros [= <-].
  rewrite (text_count "<p>" 1 0 0 1);
    [| done | done | done | apply w_elem_p | apply s_open_p | done | done].
  assert (imap (fun s (sent : list string) => 0 + 0 * length sent
                              + (if break_after doc s then 1 else 0))
               (sentences doc)
          = imap (fun i _ => if break_after doc (length (@nil (list string)) + i)
                             then 1 else 0)
                 (sentences doc)) as ->.
  { apply imap_ext. intros s sent _. cbn. destruct (break_after doc s); lia. }
  pose proof (sum_breaks doc (sentences doc) [] eq_refl) as Hsum.
  cbn [length breaks_before] in Hsum.
  destruct (breaks_before_le doc (length (sentences doc))) as [Hs Hp].
  cbn [length] in *. destruct (pars_of doc); lia.
Qed.

(** X12 on a document with three boundary indices given for one
    sentence, whose last token is one of them: one break is written
    after the sentence, so the text has two [<p>], which is no more
    than the one sentence and the three indices allow. *)
Lemma paragraph_count_bounded_witness :
  exists out,
    _build_text (Doc "d" [["A"; "B"]] None (Some [(0, 0); (1, 1); (2, 5)]%Z) [])
    = Return out
    /\ 1 <= occurrences "<p>" out /\ occurrences "<p>" out <= 1 + 1.
Proof.
  set (doc := Doc "d" [["A"; "B"]] None (Some [(0, 0); (1, 1); (2, 5)]%Z) []).
  assert (exists out, _build_text doc = Return out) as [out Hout]
    by (eexists; by vm_compute).
  exists out. split; [exact Hout|].
  destruct (paragraph_count_bounded doc out Hout) as (H1 & H2 & _).
  exact (conj H1 H2).
Defined.

Section urs_counts.

Lemma occurrences_imap_const {A} pat (f : nat -> A -> string) (k : nat)
    (l : list A) :
  String.prefix "<" pat = true ->
  (forall i x, ends_clean pat (f i x) = true
               /\ occurrences pat (f i x) = k) ->
  occurrences pat (cat (imap f l)) = k * length l.
Proof.
  intros Hlt Hf.
  rewrite (occurrences_imap pat Hlt f (fun _ _ => k)); [|intros; apply Hf..].
  apply sum_list_imap_const.
Qed.

Lemma lt_free_mention_id m : lt_free (mention_id m) = true.
Proof. unfold mention_id. lt_free_pieces. Qed.

Lemma lt_free_chain_id c : lt_free (chain_id c) = true.
Proof. unfold chain_id. lt_free_pieces. Qed.

Lemma lt_free_token_ref i : lt_free (token_ref i) = true.
Proof. unfold token_ref. lt_free_pieces. Qed.

Lemma lt_free_targets (l : list nat) :
  lt_free (Py.join " " ((fun m => "#" +:+ mention_id m) <$> l)) = true.
Proof.
  apply lt_free_join; [done|].
  apply Forall_fmap, Forall_forall. intros m _. cbn.
  apply lt_free_app; [done | apply lt_free_mention_id].
Qed.

End urs_counts.

(** The pieces of the annotations, matched by their shape. *)
Ltac urs_unfold :=
  unfold span_elem, link_elem, mention_fs, chain_fs, nb_maillons, ref_feature,
    quoted.

Ltac lt_free_urs :=
  repeat apply lt_free_app;
  lazymatch goal with
  | |- lt_free (Py.str_nat _) = true => apply lt_free_str_nat
  | |- lt_free (Py.str_int _) = true => apply lt_free_str_int
  | |- lt_free (mention_id _) = true => apply lt_free_mention_id
  | |- lt_free (chain_id _) = true => apply lt_free_chain_id
  | |- lt_free (token_ref _) = true => apply lt_free_token_ref
  | |- lt_free (Py.join _ _) = true => apply lt_free_targets
  | |- _ => reflexivity
  end.

Ltac clean_urs :=
  repeat apply ends_clean_app;
  first [ reflexivity
        | apply ends_clean_lt_free; [reflexivity | lt_free_urs] ].

Ltac occ_urs :=
  lazymatch goal with
  | |- occurrences _ (_ +:+ _) = _ =>
      eapply occurrences_app_eq;
        [ reflexivity | clean_urs | occ_urs | occ_urs | reflexivity ]
  | |- occurrences _ (String _ _) = _ => vm_compute; reflexivity
  | |- occurrences _ dquote = _ => vm_compute; reflexivity
  | |- _ => apply occurrences_lt_free; [reflexivity | lt_free_urs]
  end.

(** The count of a pattern in the annotations, from its counts in the
    four kinds of elements. *)
Section urs_elements.

Variable pat : string.
Variables k_span k_link k_mfs k_cfs : nat.
Hypothesis pat_lt : String.prefix "<" pat = true.
Hypothesis span_count : forall m x,
ends_clean pat (span_elem m x) = true
/\ occurrences pat (span_elem m x) = k_span.
Hypothesis link_count : forall c (l : list nat),
ends_clean pat
  (link_elem c (Py.join " " ((fun m => "#" +:+ mention_id m) <$> l))) = true
/\ occurrences pat
     (link_elem c (Py.join " " ((fun m => "#" +:+ mention_id m) <$> l)))
   = k_link.
Hypothesis mfs_count : forall m,
ends_clean pat (mention_fs m) = true
/\ occurrences pat (mention_fs m) = k_mfs.
Hypothesis cfs_count : forall c cl,
ends_clean pat (chain_fs c cl) = true
/\ occurrences pat (chain_fs c cl) = k_cfs.
Hypothesis literals :
Forall (fun s => ends_clean pat s = true /\ occurrences pat s = 0)
  [ "<standOff><annotations type="; dquote; "coreference"; ">";
    "<annotationGrp type="; "Unit"; " subtype="; "MENTION";
    "</annotationGrp>"; "Schema"; "CHAINE"; "<div type="; "unit-fs";
    "</div>"; "relation-fs"; "/>"; "schema-fs";
    "</annotations></standOff>" ].

Lemma urs_xml_count (cls : list cluster) :
occurrences pat (urs_xml cls)
= (k_span + k_mfs) * length (concat cls) + (k_link + k_cfs) * length cls.
Proof.
repeat (apply Forall_cons in literals as [[? ?] literals]).
unfold urs_xml, quoted.
assert (ends_clean pat (cat (imap (fun m x => span_elem m x) (concat cls)))
        = true) as Hc1 by (apply ends_clean_imap; intros; apply span_count).
assert (ends_clean pat (cat (imap (fun m (_ : mention) => mention_fs m)
                                  (concat cls)))
        = true) as Hc3 by (apply ends_clean_imap; intros; apply mfs_count).
assert (ends_clean pat (cat (imap (fun c cl => chain_fs c cl) cls))
        = true) as Hc4 by (apply ends_clean_imap; intros; apply cfs_count).
assert (ends_clean pat
          (cat (imap (fun c (cl : cluster) =>
                        link_elem c
                          (Py.join " " ((fun m => "#" +:+ mention_id m)
                                          <$> seq (first_id cls c) (length cl))))
                     cls))
        = true) as Hc2 by (apply ends_clean_imap; intros; apply link_count).
repeat (rewrite occurrences_app
          by (try assumption; repeat apply ends_clean_app; assumption)).
rewrite (occurrences_imap_const pat (fun m x => span_elem m x) k_span)
  by (done || intros; apply span_count).
rewrite (occurrences_imap_const pat (fun m (_ : mention) => mention_fs m) k_mfs)
  by (done || intros; apply mfs_count).
rewrite (occurrences_imap_const pat (fun c cl => chain_fs c cl) k_cfs)
  by (done || intros; apply cfs_count).
erewrite (occurrences_imap_const pat _ k_link)
  by (done || intros; apply link_count).
repeat match goal with H : occurrences pat _ = 0 |- _ => rewrite H; clear H end.
rewrite !Nat.mul_add_distr_r. unfold cluster, mention in *. lia.
Qed.

End urs_elements.

Lemma span_elem_span m x :
  ends_clean "<span " (span_elem m x) = true
  /\ occurrences "<span " (span_elem m x) = 1.
Proof. urs_unfold. split; [clean_urs | occ_urs]. Qed.

Lemma span_elem_link m x :
  ends_clean "<link " (span_elem m x) = true
  /\ occurrences "<link " (span_elem m x) = 0.
Proof. urs_unfold. split; [clean_urs | occ_urs]. Qed.

Lemma span_elem_fs m x :
  ends_clean "<fs " (span_elem m x) = true
  /\ occurrences "<fs " (span_elem m x) = 0.
Proof. urs_unfold. split; [clean_urs | occ_urs]. Qed.

Lemma link_elem_span c (l : list nat) :
  ends_clean "<span "
    (link_elem c (Py.join " " ((fun m => "#" +:+ mention_id m) <$> l))) = true
  /\ occurrences "<span "
       (link_elem c (Py.join " " ((fun m => "#" +:+ mention_id m) <$> l))) = 0.
Proof. urs_unfold. split; [clean_urs | occ_urs]. Qed.

Lemma link_elem_link c (l : list nat) :
  ends_clean "<link "
    (link_elem c (Py.join " " ((fun m => "#" +:+ mention_id m) <$> l))) = true
  /\ occurrences "<link "
       (link_elem c (Py.join " " ((fun m => "#" +:+ mention_id m) <$> l))) = 1.
Proof. urs_unfold. split; [clean_urs | occ_urs]. Qed.

Lemma link_elem_fs c (l : list nat) :
  ends_clean "<fs "
    (link_elem c (Py.join " " ((fun m => "#" +:+ mention_id m) <$> l))) = true
  /\ occurrences "<fs "
       (link_elem c (Py.join " " ((fun m => "#" +:+ mention_id m) <$> l))) = 0.
Proof. urs_unfold. split; [clean_urs | occ_urs]. Qed.

Lemma mention_fs_span m :
  ends_clean "<span " (mention_fs m) = true
  /\ occurrences "<span " (mention_fs m) = 0.
Proof. urs_unfold. split; [clean_urs | occ_urs]. Qed.

Lemma mention_fs_link m :
  ends_clean "<link " (mention_fs m) = true
  /\ occurrences "<link " (mention_fs m) = 0.
Proof. urs_unfold. split; [clean_urs | occ_urs]. Qed.

Lemma mention_fs_fs m :
  ends_clean "<fs " (mention_fs m) = true
  /\ occurrences "<fs " (mention_fs m) = 1.
Proof. urs_unfold. split; [clean_urs | occ_urs]. Qed.

Lemma chain_fs_span c cl :
  ends_clean "<span " (chain_fs c cl) = true
  /\ occurrences "<span " (chain_fs c cl) = 0.
Proof. urs_unfold. split; [clean_urs | occ_urs]. Qed.

Lemma chain_fs_link c cl :
  ends_clean "<link " (chain_fs c cl) = true
  /\ occurrences "<link " (chain_fs c cl) = 0.
Proof. urs_unfold. split; [clean_urs | occ_urs]. Qed.

Lemma chain_fs_fs c cl :
  ends_clean "<fs " (chain_fs c cl) = true
  /\ occurrences "<fs " (chain_fs c cl) = 1.
Proof. urs_unfold. split; [clean_urs | occ_urs]. Qed.

(** X13.  The annotations hold exactly one span per mention, one link
    per cluster, and one feature structure for each of them, whatever
    the bounds of the mentions are. *)
Theorem urs_element_counts (fuel : nat) (doc : document) (first : bool)
    (out : string) :
  _build_urs fuel doc first = Return out ->
  occurrences "<span " out = length (concat (clusters doc))
  /\ occurrences "<link " out = length (clusters doc)
  /\ occurrences "<fs " out
     = length (concat (clusters doc)) + length (clusters doc).
Proof.
  rewrite _build_urs_spec. case_bool_decide; [done|]. intros [= <-].
  split_and!.
  - rewrite (urs_xml_count "<span " 1 0 0 0 eq_refl span_elem_span
               link_elem_span mention_fs_span chain_fs_span);
      [lia | repeat constructor].
  - rewrite (urs_xml_count "<link " 0 1 0 0 eq_refl span_elem_link
               link_elem_link mention_fs_link chain_fs_link);
      [lia | repeat constructor].
  - rewrite (urs_xml_count "<fs " 0 0 1 1 eq_refl span_elem_fs
               link_elem_fs mention_fs_fs chain_fs_fs);
      [lia | repeat constructor].
Qed.

(** X13 on a document with a chain of two mentions and a chain of
    one. *)
Lemma urs_element_counts_witness :
  exists out,
    _build_urs 0 Examples.two_chains true = Return out
    /\ occurrences "<span " out = 3
    /\ occurrences "<link " out = 2
    /\ occurrences "<fs " out = 3 + 2.
Proof.
  assert (exists out, _build_urs 0 Examples.two_chains true = Return out)
    as [out Hout].
  { eexists. rewrite _build_urs_spec. by vm_compute. }
  exists out. split; [exact Hout|].
  exact (urs_element_counts 0 Examples.two_chains true out Hout).
Defined.

(** ** File names *)


(** X14.  The file stem is a safe file name part: every one of its
    characters is a letter, a digit, a hyphen or an underscore (so it
    holds no slash and no dot), it holds no two underscores in a row,
    and it is never longer than the document key. *)
Theorem file_stem_safe (key : string) :
  all_chars name_char (file_stem key) = true
  /\ occurrences "__" (file_stem key) = 0
  /\ occurrences "/" (file_stem key) = 0
  /\ String.length (file_stem key) <= String.length key.
Proof.
  unfold file_stem. split_and!.
  - apply re_sub_plus_all, re_sub_class_all.
  - apply re_sub_plus_no_run.
  - pose proof (re_sub_plus_all name_char _ false (re_sub_class_all key)) as Hall.
    induction (re_sub_plus _ _ _ _) as [|c s IH]; [done|].
    cbn [all_chars] in Hall. apply andb_prop in Hall as [Hc Hs].
    cbn [occurrences String.prefix]. rewrite (IH Hs).
    destruct (ascii_dec "/" c) as [<-|]; [done|]. by rewrite ?prefix_nil.
  - etrans; [apply re_sub_plus_length|]. by rewrite re_sub_class_length.
Qed.

(** X15.  Making the stem of a stem changes nothing: a document key
    that is already a stem names its own files. *)
Theorem file_stem_idempotent (key : string) :
  file_stem (file_stem key) = file_stem key.
Proof.
  unfold file_stem at 1.
  rewrite re_sub_class_id
    by (unfold file_stem; apply re_sub_plus_all, re_sub_class_all).
  apply re_sub_plus_id. unfold file_stem. apply re_sub_plus_no_run.
Qed.

(** ** Identifiers written once *)

Section numbered_tags.

(** A character [z] that is no decimal digit. *)
Variable z : ascii.
Hypothesis z_no_digit : forall d, Ascii.eqb (pretty_N_char d) z = false.

Local Abbreviation other := (fun c => negb (Ascii.eqb c z)).

Lemma other_pretty_N_go (x : N) : forall s,
  all_chars other s = true -> all_chars other (pretty_N_go x s) = true.
Proof using z_no_digit.
  induction (N.lt_wf_0 x) as [x _ IH]. intros s Hs.
  destruct (decide (x = 0)%N) as [->|Hx].
  - by rewrite pretty_N_go_0.
  - rewrite pretty_N_go_step by lia.
    apply IH; [apply N.div_lt; lia|].
    cbn [all_chars]. by rewrite Hs, z_no_digit.
Qed.

Lemma other_str_nat n : all_chars other (Py.str_nat n) = true.
Proof using z_no_digit.
  unfold Py.str_nat, pretty, pretty_nat, pretty, pretty_N.
  case_decide; [|by apply other_pretty_N_go].
  pose proof (z_no_digit 0) as H0. unfold pretty_N_char in H0.
  cbn [all_chars]. by rewrite H0.
Qed.

Lemma prefix_same_head l a b :
  String.prefix (l +:+ a) (l +:+ b) = String.prefix a b.
Proof.
  induction l as [|c l IH]; [by rewrite !str_app_nil_l|].
  rewrite !str_app_cons. cbn [String.prefix].
  by destruct (ascii_dec c c).
Qed.

Lemma prefix_self_app a b : String.prefix a (a +:+ b) = true.
Proof.
  rewrite <- (str_app_nil_r a) at 1.
  rewrite prefix_same_head. apply prefix_nil.
Qed.

(** Two numbers followed by [z]: one starts the other only if they
    are equal. *)
Lemma prefix_closed_numbers a : forall b a' b',
  all_chars other a = true -> all_chars other b = true ->
  String.prefix (a +:+ String z a') (b +:+ String z b') = true -> a = b.
Proof.
  induction a as [|c a IH]; intros [|d b] a' b'; cbn [all_chars];
    rewrite ?str_app_nil_l, ?str_app_cons; cbn [String.prefix].
  - done.
  - intros _ [Hd _]%andb_prop. destruct (ascii_dec z d) as [<-|]; [|done].
    by rewrite Ascii.eqb_refl in Hd.
  - intros [Hc _]%andb_prop _. destruct (ascii_dec c z) as [->|]; [|done].
    by rewrite Ascii.eqb_refl in Hc.
  - intros [_ Ha]%andb_prop [_ Hb]%andb_prop.
    destruct (ascii_dec c d) as [->|]; [|done].
    intros H. f_equal. by eapply IH.
Qed.

Lemma prefix_numbered l (i j : nat) a' b' :
  String.prefix (l +:+ Py.str_nat i +:+ String z a')
                (l +:+ Py.str_nat j +:+ String z b') = true ->
  i = j.
Proof using z_no_digit.
  rewrite prefix_same_head.
  intros H%prefix_closed_numbers; [|apply other_str_nat..].
  by apply (inj pretty) in H.
Qed.

(** The opening of an element that carries the number [i]:
    [<] and a text [l] with no [<], the number, [z] and a text [e]
    with no [<].  The pattern is such an opening for the number [T]. *)
Variables l e : string.
Hypothesis l_lt_free : lt_free l = true.
Hypothesis e_lt_free : lt_free (String z e) = true.

Local Abbreviation opening i :=
  (String "<" l +:+ Py.str_nat i +:+ String z e).

Lemma opening_tail_lt_free i :
  lt_free (l +:+ Py.str_nat i +:+ String z e) = true.
Proof using l_lt_free e_lt_free.
  apply lt_free_app; [done|]. apply lt_free_app; [|done].
  apply lt_free_str_nat.
Qed.

Lemma opening_lt T : String.prefix "<" (opening T) = true.
Proof.
  rewrite (str_app_cons _ l (Py.str_nat T +:+ String z e)).
  cbn [String.prefix]. destruct (ascii_dec "<" "<"); [|done].
  apply prefix_nil.
Qed.

Lemma opening_clean T i : ends_clean (opening T) (opening i) = true.
Proof using z_no_digit l_lt_free e_lt_free.
  rewrite (str_app_cons _ l (Py.str_nat i +:+ String z e)).
  cbn [ends_clean].
  rewrite (ends_clean_lt_free _ (opening_lt T) _ (opening_tail_lt_free i)).
  rewrite andb_true_r. rewrite <- str_app_cons.
  destruct (String.prefix (opening i) (opening T)) eqn:Hp; [|done].
  apply prefix_numbered in Hp as ->.
  cbn [negb orb]. rewrite <- (str_app_nil_r (opening T)) at 2.
  apply prefix_self_app.
Qed.

Lemma opening_count T i rest :
  occurrences (opening T) (opening i +:+ rest)
  = (if bool_decide (T = i) then 1 else 0) + occurrences (opening T) rest.
Proof using z_no_digit l_lt_free e_lt_free.
  rewrite (occurrences_app _ (opening_lt T)) by apply opening_clean. f_equal.
  rewrite (str_app_cons _ l (Py.str_nat i +:+ String z e)).
  cbn [occurrences].
  rewrite (occurrences_lt_free _ (opening_lt T) _ (opening_tail_lt_free i)).
  rewrite Nat.add_0_r, <- str_app_cons.
  case_bool_decide as HT.
  - subst i. rewrite <- (str_app_nil_r (opening T)) at 2.
    by rewrite prefix_self_app.
  - destruct (String.prefix (opening T) (opening i)) eqn:Hp; [|done].
    by apply prefix_numbered in Hp.
Qed.

End numbered_tags.

Section longer_patterns.

(** A text that starts [h +:+ p] starts [h] or is a start of [h]. *)
Lemma prefix_app_cases x : forall h p,
  String.prefix x (h +:+ p) = true ->
  String.prefix h x = true \/ String.prefix x h = true.
Proof.
  induction x as [|a x IH]; intros h p;
    [intros _; right; apply prefix_nil|].
  destruct h as [|b h]; [left; apply prefix_nil|].
  rewrite str_app_cons. cbn [String.prefix].
  destruct (ascii_dec a b) as [->|]; [|done].
  destruct (ascii_dec b b); [|done]. apply IH.
Qed.

Lemma prefix_app_head h p x :
  String.prefix (h +:+ p) x = true -> String.prefix h x = true.
Proof.
  revert x. induction h as [|b h IH]; intros x; [intros _; apply prefix_nil|].
  rewrite str_app_cons. destruct x as [|a x]; [done|]. cbn [String.prefix].
  destruct (ascii_dec b a); [apply IH | done].
Qed.

(** A text with no [h] and no cut start of [h] has no [h +:+ p] and
    no cut start of it. *)
Lemma free_of_head h p s :
  h <> "" -> ends_clean h s = true -> occurrences h s = 0 ->
  ends_clean (h +:+ p) s = true /\ occurrences (h +:+ p) s = 0.
Proof.
  intros Hh. induction s as [|a s IH]; cbn [ends_clean occurrences].
  - intros _ _. split; [done|].
    destruct h as [|b h]; [done|]. by rewrite str_app_cons.
  - intros [Hc Hs]%andb_prop Ho.
    destruct (String.prefix h (String a s)) eqn:Hp; [lia|].
    destruct (IH Hs ltac:(lia)) as [-> ->].
    rewrite orb_false_r in Hc. apply negb_true_iff in Hc.
    assert (String.prefix (h +:+ p) (String a s) = false) as ->.
    { destruct (String.prefix (h +:+ p) (String a s)) eqn:Hq; [|done].
      apply prefix_app_head in Hq. congruence. }
    assert (String.prefix (String a s) (h +:+ p) = false) as ->.
    { destruct (String.prefix (String a s) (h +:+ p)) eqn:Hq; [|done].
      apply prefix_app_cases in Hq as [?|?]; congruence. }
    done.
Qed.

Lemma sum_lengths_concat {A} (l : list (list A)) :
  sum_list_with length l = length (concat l).
Proof.
  induction l as [|x l IH]; [done|].
  cbn [sum_list_with concat]. rewrite length_app. lia.
Qed.

Lemma sent_offset_all doc :
  sent_offset doc (length (sentences doc)) = length (tokens_of doc).
Proof.
  unfold sent_offset, tokens_of. rewrite take_ge by done.
  apply sum_lengths_concat.
Qed.

Lemma sum_list_imap_add {A} (l : list A) : forall f g : nat -> nat,
  sum_list (imap (fun i _ => f i + g i) l)
  = sum_list (imap (fun i _ => f i) l) + sum_list (imap (fun i _ => g i) l).
Proof.
  induction l as [|x l IH]; intros f g; [done|].
  rewrite !imap_cons. cbn [sum_list_with id].
  change (imap ((fun i (_ : A) => f i + g i) ∘ S) l)
    with (imap (fun i (_ : A) => (f ∘ S) i + (g ∘ S) i) l).
  change (imap ((fun i (_ : A) => f i) ∘ S) l)
    with (imap (fun i (_ : A) => (f ∘ S) i) l).
  change (imap ((fun i (_ : A) => g i) ∘ S) l)
    with (imap (fun i (_ : A) => (g ∘ S) i) l).
  rewrite IH. lia.
Qed.

(** At most one of the numbers [k .. k + len - 1] is [T]. *)
Lemma sum_indicator {A} (T : nat) (l : list A) : forall k,
  sum_list (imap (fun i _ => if bool_decide (T = k + i) then 1 else 0) l)
  = if bool_decide (k <= T < k + length l) then 1 else 0.
Proof.
  induction l as [|x l IH]; intros k.
  - cbn. by rewrite bool_decide_eq_false_2 by lia.
  - rewrite imap_cons. cbn [sum_list_with length]. unfold id at 1.
    assert (imap ((fun i (_ : A) =>
                     if bool_decide (T = k + i) then 1 else 0) ∘ S) l
            = imap (fun i _ => if bool_decide (T = S k + i) then 1 else 0) l)
      as ->.
    { apply imap_ext. intros i y _. cbn. by rewrite Nat.add_succ_r. }
    rewrite IH. repeat case_bool_decide; lia.
Qed.

End longer_patterns.

Section text_ids.

Lemma quote_no_digit d : Ascii.eqb (pretty_N_char d) "034" = false.
Proof. unfold pretty_N_char. by repeat case_match. Qed.

Variable T : nat.

(** The opening of the element of the token of index [T], up to the
    end of its id. *)
Local Abbreviation w_pat :=
  ("<w id=" +:+ quoted ("w_export_" +:+ Py.str_nat T)).

Lemma w_pat_free s :
  ends_clean "<w " s = true /\ occurrences "<w " s = 0 ->
  ends_clean w_pat s = true /\ occurrences w_pat s = 0.
Proof.
  intros [Hc Ho].
  exact (free_of_head "<w " ("id=" +:+ quoted ("w_export_" +:+ Py.str_nat T))
           s ltac:(done) Hc Ho).
Qed.

Lemma w_pat_lt : String.prefix "<" w_pat = true.
Proof. reflexivity. Qed.

Lemma w_elem_id i token tag :
  ends_clean w_pat (w_elem i token tag) = true
  /\ occurrences w_pat (w_elem i token tag)
     = if bool_decide (T = i) then 1 else 0.
Proof.
  set (rest := " n=" +:+ quoted (Py.str_nat i) +:+ ">" +:+ txm_form token
               +:+ from_option txm_ana "" tag +:+ "</w>").
  assert (w_elem i token tag
          = (String "<" ("w id=" +:+ dquote +:+ "w_export_")
             +:+ Py.str_nat i +:+ String "034" "") +:+ rest) as ->.
  { unfold rest, w_elem, w_open, word_id, quoted.
    rewrite !str_app_assoc. reflexivity. }
  assert (ends_clean "<w " rest = true /\ occurrences "<w " rest = 0)
    as [Hc Ho]%w_pat_free.
  { unfold rest, txm_form, quoted.
    destruct tag as [tag|]; cbn [from_option]; unfold txm_ana, quoted;
      (split; [clean_pieces | occ_count]). }
  split.
  - apply ends_clean_app; [|exact Hc].
    exact (opening_clean "034" quote_no_digit
             ("w id=" +:+ dquote +:+ "w_export_") "" eq_refl eq_refl T i).
  - etrans; [exact (opening_count "034" quote_no_digit
               ("w id=" +:+ dquote +:+ "w_export_") "" eq_refl eq_refl
               T i rest)|].
    replace (occurrences _ rest) with 0 by (symmetry; exact Ho). lia.
Qed.

Lemma s_elem_id doc s sent :
  ends_clean w_pat (s_elem doc s sent) = true
  /\ occurrences w_pat (s_elem doc s sent)
     = if bool_decide (sent_offset doc s <= T
                       < sent_offset doc s + length sent) then 1 else 0.
Proof.
  unfold s_elem.
  destruct (w_pat_free _ (s_open_w s)) as [Hc1 Ho1].
  destruct (w_pat_free "</s>" ltac:(done)) as [Hc2 Ho2].
  assert (ends_clean w_pat
            (cat (imap (fun t_local token =>
                          w_elem (sent_offset doc s + t_local) token
                                 (tag_at doc s t_local)) sent)) = true)
    as Hc3 by (apply ends_clean_imap; intros; apply w_elem_id).
  split.
  - apply ends_clean_app; [done|]. by apply ends_clean_app.
  - rewrite (occurrences_app _ w_pat_lt) by done.
    rewrite (occurrences_app _ w_pat_lt) by done.
    rewrite Ho1, Ho2.
    rewrite (occurrences_imap _ w_pat_lt _
               (fun t_local _ =>
                  if bool_decide (T = sent_offset doc s + t_local)
                  then 1 else 0));
      [|intros; apply w_elem_id..].
    rewrite sum_indicator. lia.
Qed.

Lemma par_mark_id doc s :
  ends_clean w_pat (par_mark doc s) = true
  /\ occurrences w_pat (par_mark doc s) = 0.
Proof.
  apply w_pat_free. unfold par_mark. by destruct (break_after doc s).
Qed.

(** The sentences from [length pre] on hold the ids from their
    offset on. *)
Lemma sum_sentence_ids doc rest : forall pre,
  sentences doc = pre ++ rest ->
  sum_list (imap (fun i (sent : list string) =>
                    if bool_decide
                         (sent_offset doc (length pre + i) <= T
                          < sent_offset doc (length pre + i) + length sent)
                    then 1 else 0) rest)
  = if bool_decide (sent_offset doc (length pre) <= T
                    < length (tokens_of doc)) then 1 else 0.
Proof.
  induction rest as [|sent rest IH]; intros pre Hs.
  - cbn [imap sum_list_with]. rewrite bool_decide_eq_false_2; [done|].
    rewrite <- sent_offset_all, Hs, app_nil_r. lia.
  - rewrite imap_cons. cbn [sum_list_with]. unfold id at 1.
    rewrite Nat.add_0_r.
    assert (sentences doc !! length pre = Some sent) as Hsent.
    { rewrite Hs. by apply list_lookup_middle. }
    specialize (IH (pre ++ [sent])). rewrite <- (assoc_L (++)) in IH.
    specialize (IH Hs). rewrite length_app in IH. cbn [length] in IH.
    rewrite Nat.add_1_r in IH.
    rewrite (sent_offset_lookup_S _ _ _ Hsent) in IH.
    assert (imap ((fun i (sent0 : list string) =>
              if bool_decide
                   (sent_offset doc (length pre + i) <= T
                    < sent_offset doc (length pre + i) + length sent0)
              then 1 else 0) ∘ S) rest
            = imap (fun i (sent0 : list string) =>
              if bool_decide
                   (sent_offset doc (S (length pre) + i) <= T
                    < sent_offset doc (S (length pre) + i) + length sent0)
              then 1 else 0) rest) as ->.
    { apply imap_ext. intros i x _. cbn. by rewrite Nat.add_succ_r. }
    rewrite IH.
    assert (sent_offset doc (length pre) + length sent
            <= length (tokens_of doc)) as Hle.
    { rewrite <- (sent_offset_lookup_S _ _ _ Hsent).
      pose proof (sent_offset_mono doc (S (length pre))
                    (length (sentences doc))) as Hmono.
      rewrite <- sent_offset_all. apply Hmono. apply lookup_lt_Some in Hsent. lia. }
    repeat case_bool_decide; lia.
Qed.

Lemma text_ids doc :
  occurrences w_pat
    ("<text><p>"
     +:+ cat (imap (fun s sent => s_elem doc s sent +:+ par_mark doc s)
                   (sentences doc))
     +:+ "</p></text>")
  = if bool_decide (T < length (tokens_of doc)) then 1 else 0.
Proof.
  destruct (w_pat_free "<text><p>" ltac:(done)) as [Hc1 Ho1].
  destruct (w_pat_free "</p></text>" ltac:(done)) as [Hc2 Ho2].
  assert (forall s sent,
            ends_clean w_pat (s_elem doc s sent +:+ par_mark doc s) = true)
    as Hclean.
  { intros. apply ends_clean_app; [apply s_elem_id | apply par_mark_id]. }
  rewrite (occurrences_app _ w_pat_lt) by done.
  rewrite (occurrences_app _ w_pat_lt) by (by apply ends_clean_imap).
  rewrite Ho1, Ho2.
  rewrite (occurrences_imap _ w_pat_lt _
             (fun s sent =>
                if bool_decide
                     (sent_offset doc (length (@nil (list string)) + s) <= T
                      < sent_offset doc (length (@nil (list string)) + s)
                        + length sent)
                then 1 else 0)); [|done|].
  - rewrite (sum_sentence_ids doc (sentences doc) [] eq_refl).
    cbn [length Nat.add]. change (sent_offset doc 0) with 0.
    repeat case_bool_decide; lia.
  - intros s sent. rewrite (occurrences_app _ w_pat_lt) by apply s_elem_id.
    rewrite (proj2 (s_elem_id doc s sent)), (proj2 (par_mark_id doc s)).
    cbn [length Nat.add]. lia.
Qed.

End text_ids.

(** X9.  Token ids are never shared.  In the text [_build_text]
    returns, the opening [<w id="w_export_T"] stands exactly once for
    every [T] below the number of tokens of the document and never for
    another [T]; and two places (sentence, place in the sentence) with
    the same index [T] are the same place. *)
Theorem token_ids_distinct (doc : document) (out : string) :
  _build_text doc = Return out ->
  (forall T : nat,
     occurrences ("<w id=" +:+ quoted ("w_export_" +:+ Py.str_nat T)) out
     = if bool_decide (T < length (tokens_of doc)) then 1 else 0)
  /\ (forall (s s' : nat) (sent sent' : list string) (t_local t_local' : nat),
        sentences doc !! s = Some sent -> t_local < length sent ->
        sentences doc !! s' = Some sent' -> t_local' < length sent' ->
        sum_list_with length (take s (sentences doc)) + t_local
        = sum_list_with length (take s' (sentences doc)) + t_local' ->
        s = s' /\ t_local = t_local').
Proof.
  rewrite _build_text_spec. destruct (text_ok doc); [|done]. intros [= <-].
  split; [intros T; apply text_ids|].
  intros s s' sent sent' t_local t_local' Hs Htl Hs' Htl' Hid.
  fold (sent_offset doc s) in Hid. fold (sent_offset doc s') in Hid.
  pose proof (sent_offset_lookup_S _ _ _ Hs) as Hnext.
  pose proof (sent_offset_lookup_S _ _ _ Hs') as Hnext'.
  destruct (Nat.lt_total s s') as [Hlt|[->|Hgt]].
  - pose proof (sent_offset_mono doc (S s) s' Hlt). lia.
  - split; [done|]. lia.
  - pose proof (sent_offset_mono doc (S s') s Hgt). lia.
Qed.

(** X9 on the scenario document, of three tokens: the id of the token
    C is written once, and no fourth id is written. *)
Lemma token_ids_distinct_witness :
  exists out,
    _build_text Examples.d1 = Return out
    /\ occurrences ("<w id=" +:+ quoted "w_export_2") out = 1
    /\ occurrences ("<w id=" +:+ quoted "w_export_3") out = 0.
Proof.
  assert (exists out, _build_text Examples.d1 = Return out) as [out Hout]
    by (eexists; by vm_compute).
  destruct (token_ids_distinct Examples.d1 out Hout) as [Hids _].
  exists out. split; [exact Hout|].
  split; [exact (Hids 2) | exact (Hids 3)].
Defined.

Section urs_ids.

Variable pat : string.
Variables (k_span k_mfs : nat -> nat) (k_link k_cfs : nat -> nat).
Hypothesis pat_lt : String.prefix "<" pat = true.
Hypothesis span_count : forall m x,
  ends_clean pat (span_elem m x) = true
  /\ occurrences pat (span_elem m x) = k_span m.
Hypothesis link_count : forall c (l : list nat),
  ends_clean pat
    (link_elem c (Py.join " " ((fun m => "#" +:+ mention_id m) <$> l))) = true
  /\ occurrences pat
       (link_elem c (Py.join " " ((fun m => "#" +:+ mention_id m) <$> l)))
     = k_link c.
Hypothesis mfs_count : forall m,
  ends_clean pat (mention_fs m) = true
  /\ occurrences pat (mention_fs m) = k_mfs m.
Hypothesis cfs_count : forall c cl,
  ends_clean pat (chain_fs c cl) = true
  /\ occurrences pat (chain_fs c cl) = k_cfs c.
Hypothesis literals :
  Forall (fun s => ends_clean pat s = true /\ occurrences pat s = 0)
    [ "<standOff><annotations type="; dquote; "coreference"; ">";
      "<annotationGrp type="; "Unit"; " subtype="; "MENTION";
      "</annotationGrp>"; "Schema"; "CHAINE"; "<div type="; "unit-fs";
      "</div>"; "relation-fs"; "/>"; "schema-fs";
      "</annotations></standOff>" ].

Lemma urs_xml_ids (cls : list cluster) :
  occurrences pat (urs_xml cls)
  = sum_list (imap (fun m (_ : mention) => k_span m + k_mfs m) (concat cls))
    + sum_list (imap (fun c (_ : cluster) => k_link c + k_cfs c) cls).
Proof using All.
  repeat (apply Forall_cons in literals as [[? ?] literals]).
  unfold urs_xml, quoted.
  assert (ends_clean pat (cat (imap (fun m x => span_elem m x) (concat cls)))
          = true) as Hc1 by (apply ends_clean_imap; intros; apply span_count).
  assert (ends_clean pat (cat (imap (fun m (_ : mention) => mention_fs m)
                                    (concat cls)))
          = true) as Hc3 by (apply ends_clean_imap; intros; apply mfs_count).
  assert (ends_clean pat (cat (imap (fun c cl => chain_fs c cl) cls))
          = true) as Hc4 by (apply ends_clean_imap; intros; apply cfs_count).
  assert (ends_clean pat
            (cat (imap (fun c (cl : cluster) =>
                          link_elem c
                            (Py.join " " ((fun m => "#" +:+ mention_id m)
                                            <$> seq (first_id cls c) (length cl))))
                       cls))
          = true) as Hc2 by (apply ends_clean_imap; intros; apply link_count).
  repeat (rewrite (occurrences_app pat pat_lt)
            by (try assumption; repeat apply ends_clean_app; assumption)).
  rewrite (occurrences_imap pat pat_lt (fun m x => span_elem m x)
             (fun m _ => k_span m))
    by (intros; apply span_count).
  rewrite (occurrences_imap pat pat_lt (fun m (_ : mention) => mention_fs m)
             (fun m _ => k_mfs m))
    by (intros; apply mfs_count).
  rewrite (occurrences_imap pat pat_lt (fun c cl => chain_fs c cl)
             (fun c _ => k_cfs c))
    by (intros; apply cfs_count).
  erewrite (occurrences_imap pat pat_lt _ (fun c _ => k_link c))
    by (intros; apply link_count).
  repeat match goal with
         | H : occurrences pat _ = 0 |- _ => rewrite H; clear H
         end.
  rewrite !sum_list_imap_add. unfold cluster, mention in *. lia.
Qed.

End urs_ids.

Section urs_id_patterns.

Variable T : nat.

Local Abbreviation span_pat :=
  ("<span id=" +:+ quoted ("u-MENTION-" +:+ Py.str_nat T)).
Local Abbreviation link_pat :=
  ("<link id=" +:+ quoted ("s-CHAINE-" +:+ Py.str_nat T)).

Lemma span_pat_free s :
  ends_clean "<span " s = true /\ occurrences "<span " s = 0 ->
  ends_clean span_pat s = true /\ occurrences span_pat s = 0.
Proof.
  intros [Hc Ho].
  exact (free_of_head "<span "
           ("id=" +:+ quoted ("u-MENTION-" +:+ Py.str_nat T))
           s ltac:(done) Hc Ho).
Qed.

Lemma link_pat_free s :
  ends_clean "<link " s = true /\ occurrences "<link " s = 0 ->
  ends_clean link_pat s = true /\ occurrences link_pat s = 0.
Proof.
  intros [Hc Ho].
  exact (free_of_head "<link "
           ("id=" +:+ quoted ("s-CHAINE-" +:+ Py.str_nat T))
           s ltac:(done) Hc Ho).
Qed.

Lemma span_elem_id m x :
  ends_clean span_pat (span_elem m x) = true
  /\ occurrences span_pat (span_elem m x)
     = if bool_decide (T = m) then 1 else 0.
Proof.
  set (rest := " from=" +:+ quoted (token_ref x.1) +:+ " "
               +:+ "to=" +:+ quoted (token_ref x.2)
               +:+ " ana=" +:+ quoted ("#" +:+ mention_id m +:+ "-fs")
               +:+ "/>").
  assert (span_elem m x
          = (String "<" ("span id=" +:+ dquote +:+ "u-MENTION-")
             +:+ Py.str_nat m +:+ String "034" "") +:+ rest) as ->.
  { unfold rest, span_elem, mention_id, quoted.
    rewrite !str_app_assoc. reflexivity. }
  assert (ends_clean "<span " rest = true /\ occurrences "<span " rest = 0)
    as [Hc Ho]%span_pat_free.
  { unfold rest. urs_unfold. split; [clean_urs | occ_urs]. }
  split.
  - apply ends_clean_app; [|exact Hc].
    exact (opening_clean "034" quote_no_digit
             ("span id=" +:+ dquote +:+ "u-MENTION-") "" eq_refl eq_refl T m).
  - etrans; [exact (opening_count "034" quote_no_digit
               ("span id=" +:+ dquote +:+ "u-MENTION-") "" eq_refl eq_refl
               T m rest)|].
    replace (occurrences _ rest) with 0 by (symmetry; exact Ho). lia.
Qed.

Lemma link_elem_id c (l : list nat) :
  ends_clean link_pat
    (link_elem c (Py.join " " ((fun m => "#" +:+ mention_id m) <$> l))) = true
  /\ occurrences link_pat
       (link_elem c (Py.join " " ((fun m => "#" +:+ mention_id m) <$> l)))
     = if bool_decide (T = c) then 1 else 0.
Proof.
  set (target := Py.join " " ((fun m => "#" +:+ mention_id m) <$> l)).
  set (rest := " target=" +:+ quoted target +:+ " "
               +:+ "ana=" +:+ quoted ("#" +:+ chain_id c +:+ "-fs") +:+ "/>").
  assert (link_elem c target
          = (String "<" ("link id=" +:+ dquote +:+ "s-CHAINE-")
             +:+ Py.str_nat c +:+ String "034" "") +:+ rest) as ->.
  { unfold rest, link_elem, chain_id, quoted.
    rewrite !str_app_assoc. reflexivity. }
  assert (ends_clean "<link " rest = true /\ occurrences "<link " rest = 0)
    as [Hc Ho]%link_pat_free.
  { unfold rest, target. urs_unfold. split; [clean_urs | occ_urs]. }
  split.
  - apply ends_clean_app; [|exact Hc].
    exact (opening_clean "034" quote_no_digit
             ("link id=" +:+ dquote +:+ "s-CHAINE-") "" eq_refl eq_refl T c).
  - etrans; [exact (opening_count "034" quote_no_digit
               ("link id=" +:+ dquote +:+ "s-CHAINE-") "" eq_refl eq_refl
               T c rest)|].
    replace (occurrences _ rest) with 0 by (symmetry; exact Ho). lia.
Qed.

Lemma sum_indicator_0 {A} (l : list A) :
  sum_list (imap (fun i _ => (if bool_decide (T = i) then 1 else 0) + 0) l)
  = if bool_decide (T < length l) then 1 else 0.
Proof.
  etrans; [|etrans; [exact (sum_indicator T l 0)|]].
  - f_equal. apply imap_ext. intros i x _. cbn. lia.
  - repeat case_bool_decide; lia.
Qed.

Lemma span_ids (cls : list cluster) :
  occurrences span_pat (urs_xml cls)
  = if bool_decide (T < length (concat cls)) then 1 else 0.
Proof.
  rewrite (urs_xml_ids span_pat
             (fun m => if bool_decide (T = m) then 1 else 0) (fun _ => 0)
             (fun _ => 0) (fun _ => 0) eq_refl span_elem_id).
  - rewrite sum_indicator_0.
    rewrite (sum_list_imap_const (0 + 0)). lia.
  - intros. apply span_pat_free, link_elem_span.
  - intros. apply span_pat_free, mention_fs_span.
  - intros. apply span_pat_free, chain_fs_span.
  - eapply Forall_impl; [|intros s; apply span_pat_free].
    repeat constructor.
Qed.

Lemma link_ids (cls : list cluster) :
  occurrences link_pat (urs_xml cls)
  = if bool_decide (T < length cls) then 1 else 0.
Proof.
  rewrite (urs_xml_ids link_pat (fun _ => 0) (fun _ => 0)
             (fun c => if bool_decide (T = c) then 1 else 0) (fun _ => 0)
             eq_refl).
  - rewrite sum_indicator_0.
    rewrite (sum_list_imap_const (0 + 0)). lia.
  - intros. apply link_pat_free, span_elem_link.
  - apply link_elem_id.
  - intros. apply link_pat_free, mention_fs_link.
  - intros. apply link_pat_free, chain_fs_link.
  - eapply Forall_impl; [|intros s; apply link_pat_free].
    repeat constructor.
Qed.

End urs_id_patterns.

Section blocks.

(** The ids the links target, chain after chain, are all the span
    ids in order. *)
Lemma target_blocks_from (cls rest : list cluster) : forall pre,
  cls = pre ++ rest ->
  concat (imap (fun i (cl : cluster) =>
                  seq (first_id cls (length pre + i)) (length cl)) rest)
  = seq (first_id cls (length pre)) (length (concat rest)).
Proof.
  induction rest as [|cl rest IH]; intros pre Hcls; [done|].
  rewrite imap_cons. cbn [concat]. rewrite Nat.add_0_r, length_app, seq_app.
  f_equal.
  specialize (IH (pre ++ [cl])).
  rewrite length_app in IH. cbn [length] in IH.
  rewrite <- (assoc_L (++)) in IH. specialize (IH Hcls).
  assert (first_id cls (length pre + 1)
          = first_id cls (length pre) + length cl) as Hstep.
  { rewrite Hcls, Nat.add_1_r. apply first_id_S. }
  rewrite Hstep in IH. rewrite <- IH. f_equal.
  apply imap_ext. intros i y _. cbn.
  by replace (length pre + S i) with (length pre + 1 + i) by lia.
Qed.

Lemma target_blocks (cls : list cluster) :
  concat (imap (fun c (cl : cluster) => seq (first_id cls c) (length cl)) cls)
  = seq 0 (length (concat cls)).
Proof. exact (target_blocks_from cls cls [] eq_refl). Qed.

End blocks.

(** X10.  In the annotations [_build_urs] returns, the opening
    [<span id="u-MENTION-m"] stands exactly once for every [m] below
    the number of mentions and never for another [m], and the opening
    [<link id="s-CHAINE-c"] exactly once for every [c] below the number
    of clusters and never for another [c].  The links target blocks of
    span ids, one block per cluster, which put end to end are the ids
    of all the spans, each once and in the order of the spans: every
    mention belongs to exactly one chain. *)
Theorem chain_targets_partition_spans (fuel : nat) (doc : document)
    (first : bool) (out : string) :
  _build_urs fuel doc first = Return out ->
  (forall m : nat,
     occurrences ("<span id=" +:+ quoted ("u-MENTION-" +:+ Py.str_nat m)) out
     = if bool_decide (m < length (concat (clusters doc))) then 1 else 0)
  /\ (forall c : nat,
        occurrences ("<link id=" +:+ quoted ("s-CHAINE-" +:+ Py.str_nat c)) out
        = if bool_decide (c < length (clusters doc)) then 1 else 0)
  /\ exists blocks : list (list nat),
       length blocks = length (clusters doc)
       /\ concat blocks = seq 0 (length (concat (clusters doc)))
       /\ forall (c : nat) (b : list nat),
            blocks !! c = Some b ->
            contains
              ("<link id=" +:+ quoted ("s-CHAINE-" +:+ Py.str_nat c)
               +:+ " target="
               +:+ quoted (Py.join " "
                     ((fun m => "#u-MENTION-" +:+ Py.str_nat m) <$> b))
               +:+ " ana=" +:+ quoted ("#s-CHAINE-" +:+ Py.str_nat c +:+ "-fs")
               +:+ "/>")
              out.
Proof.
  rewrite _build_urs_spec. case_bool_decide; [done|]. intros [= <-].
  split; [intros m; apply span_ids|].
  split; [intros c; apply link_ids|].
  exists (imap (fun c (cl : cluster) =>
                  seq (first_id (clusters doc) c) (length cl)) (clusters doc)).
  split; [by rewrite length_imap|]. split; [apply target_blocks|].
  intros c b Hb. rewrite list_lookup_imap in Hb.
  destruct (clusters doc !! c) as [cl|] eqn:Hc; [|done].
  injection Hb as <-. unfold urs_xml.
  find_piece ltac:(exact (contains_cat_imap
    (fun c (cl : cluster) =>
       link_elem c
         (Py.join " " ((fun m => "#" +:+ mention_id m)
                         <$> seq (first_id (clusters doc) c) (length cl))))
    _ c cl Hc)).
Qed.

(** X10 on a document with a chain of two mentions and a chain of
    one: three span ids and two link ids, each once. *)
Lemma chain_targets_partition_spans_witness :
  exists out,
    _build_urs 0 Examples.two_chains true = Return out
    /\ occurrences ("<span id=" +:+ quoted "u-MENTION-2") out = 1
    /\ occurrences ("<span id=" +:+ quoted "u-MENTION-3") out = 0
    /\ occurrences ("<link id=" +:+ quoted "s-CHAINE-1") out = 1
    /\ occurrences ("<link id=" +:+ quoted "s-CHAINE-2") out = 0.
Proof.
  assert (exists out, _build_urs 0 Examples.two_chains true = Return out)
    as [out Hout].
  { eexists. rewrite _build_urs_spec. by vm_compute. }
  destruct (chain_targets_partition_spans 0 Examples.two_chains true out Hout)
    as (Hspans & Hlinks & _).
  exists out. split; [exact Hout|].
  split; [exact (Hspans 2)|]. split; [exact (Hspans 3)|].
  split; [exact (Hlinks 1) | exact (Hlinks 2)].
Defined.
